(** * Ethermint [x/evm/types/msg.go]: the Ethereum transaction message

    A shallow embedding of [MsgEthereumTx] (construction, RLP encoding,
    EIP-155 signing, signature verification with its sender cache, and
    chain-id derivation), together with the properties the specification
    states about it.

    Conventions.
    - [*big.Int] is [Z]; [uint64] is [Z] with the wrap-around written out;
      [byte] is [Init.Byte.byte]; [[]byte], [[20]byte] and [[32]byte] are
      [list byte] (the fixed-size ones are produced at their size).
    - A Go call that returns [(T, error)] or may panic returns a [result].
    - Pointer-receiver methods take the message and return the updated one.
    - The secp256k1 and Keccak primitives of go-ethereum are Section
      variables; their documented contracts are Section hypotheses. *)

From Stdlib Require Import ZArith List Lia Bool.
From coqutil Require Import Byte Word.LittleEndianList.
Import ListNotations.
Local Open Scope Z_scope.

Definition bytes := list byte.

(** ** Results of Go calls *)

Inductive error : Type :=
| ErrChainIDZero          (* errors.New("chainID cannot be zero") *)
| ErrInvalidSignature     (* errors.New("invalid signature") *)
| ErrInvalidPublicKey     (* errors.New("invalid public key") *)
| ErrRecoverFailed        (* the error returned by ethcrypto.Ecrecover *)
| ErrEOF                  (* io.EOF / io.ErrUnexpectedEOF *)
| ErrCanonSize            (* rlp: non-canonical size information *)
| ErrCanonInt             (* rlp: non-canonical integer (leading zero bytes) *)
| ErrExpectedString       (* rlp: expected String or Byte *)
| ErrExpectedList         (* rlp: expected List *)
| ErrUintOverflow         (* rlp: uint overflow *)
| ErrValueTooLarge        (* rlp: value size exceeds available input length *)
| ErrElemTooLarge         (* rlp: element is larger than containing list *)
| ErrTooFewElements       (* rlp: too few elements *)
| ErrTooManyElements      (* rlp: input list has too many elements *)
| ErrNegativeBigInt.      (* rlp: cannot encode negative *big.Int *)

Inductive panic : Type :=
| NilPointerDereference   (* runtime error: invalid memory address or nil pointer dereference *)
| SliceBoundsOutOfRange   (* runtime error: slice bounds out of range *)
| SignFailed              (* panic(err) in Sign *)
| WrongSignatureSize.     (* panic("wrong size for signature: ...") *)

Inductive result (A : Type) : Type :=
| Ok (a : A)
| Err (e : error)
| Panic (p : panic).
Arguments Ok {A} a.
Arguments Err {A} e.
Arguments Panic {A} p.

Definition bind {A B} (r : result A) (k : A -> result B) : result B :=
  match r with
  | Ok a => k a
  | Err e => Err e
  | Panic p => Panic p
  end.

Notation "x <- r ;; k" := (bind r (fun x => k))
  (at level 61, r at next level, right associativity).
Notation "' pat <- r ;; k" := (bind r (fun x => match x with pat => k end))
  (at level 61, pat pattern, r at next level, right associativity).

(** ** Byte slices *)

Definition blen (b : bytes) : Z := Z.of_nat (length b).

(** [b[i:]] and [b[:j]] on a slice that is long enough. *)
Definition slice_from (i : nat) (b : bytes) : bytes := skipn i b.
Definition slice_to (j : nat) (b : bytes) : bytes := firstn j b.

(** A zeroed buffer of [n] bytes into which [b] is copied right-aligned:
    [buf := make([]byte, n); copy(buf[n-len(b):], b)].  The slice expression
    panics when [b] is longer than [n]. *)
Definition right_align (n : nat) (b : bytes) : result bytes :=
  if (length b <=? n)%nat then Ok (repeat Byte.x00 (n - length b) ++ b)
  else Panic SliceBoundsOutOfRange.

(** ** math/big *)

Module big.

(** [new(big.Int).SetBytes(b)]: [b] read as a big-endian unsigned integer. *)
Definition SetBytes (b : bytes) : Z := le_combine (rev b).

(** [x.BitLen()]: the length of the absolute value of [x] in bits. *)
Definition BitLen (x : Z) : Z :=
  if x =? 0 then 0 else Z.log2 (Z.abs x) + 1.

Definition byteLen (x : Z) : nat := Z.to_nat ((BitLen x + 7) / 8).

(** [x.Bytes()]: the absolute value of [x] as a big-endian byte slice
    without leading zero bytes (empty for zero). *)
Definition Bytes (x : Z) : bytes := rev (le_split (byteLen x) (Z.abs x)).

(** [x.Sign()]. *)
Definition Sign (x : Z) : Z := Z.sgn x.

(** [x.Uint64()]: the low 64 bits of the absolute value ([low64(x.abs)]);
    it is [x] itself when [x] is representable. *)
Definition Uint64 (x : Z) : Z := Z.abs x mod 2 ^ 64.

End big.

(** [uint64] and [byte] arithmetic wrap around. *)
Definition wrap64 (z : Z) : Z := z mod 2 ^ 64.
Definition wrap8 (z : Z) : Z := z mod 2 ^ 8.

(** ** go-ethereum/common *)

Module ethcmn.

Definition AddressLength : nat := 20.
Definition HashLength : nat := 32.

(** [Address] is [[20]byte], [Hash] is [[32]byte]. *)
Definition Address := bytes.
Definition Hash := bytes.

(** The zero values [Address{}] and [Hash{}]. *)
Definition Address_zero : Address := repeat Byte.x00 AddressLength.
Definition Hash_zero : Hash := repeat Byte.x00 HashLength.

(** [copy(a[n-len(b):], b)] after cropping [b] from the left to [n]
    bytes: the body of [Address.SetBytes] and [Hash.SetBytes]. *)
Definition setBytes (n : nat) (b : bytes) : bytes :=
  let b' := skipn (length b - n) b in
  repeat Byte.x00 (n - length b') ++ b'.

Definition BytesToAddress (b : bytes) : Address := setBytes AddressLength b.

(** [a.Bytes()] is [a[:]], and [h.Bytes()] is [h[:]]. *)
Definition Address_Bytes (a : Address) : bytes := a.
Definition Hash_Bytes (h : Hash) : bytes := h.

(** [to.Bytes()] on a [*Address]: [Bytes] has a value receiver, so the
    pointer is dereferenced first and a nil pointer panics. *)
Definition ptr_Address_Bytes (to : option Address) : result bytes :=
  match to with
  | Some a => Ok (Address_Bytes a)
  | None => Panic NilPointerDereference
  end.

Definition CopyBytes (b : bytes) : bytes := b.

End ethcmn.

(** ** go-ethereum/rlp *)

Module rlp.

(** *** Encoding *)

(** The Go values this package hands to [rlp.Encode]. *)
#[local] Set Warnings "-register-all".
Inductive value : Type :=
| Uint (n : Z)              (* uint, uint64 *)
| BigInt (z : Z)            (* *big.Int *)
| ByteSlice (b : bytes)     (* []byte *)
| ByteArray (b : bytes)     (* [N]byte, such as common.Address *)
| ListOf (l : list value).  (* []interface{}, or the fields of a struct *)

(** [puthead]: the size tag of a string ([smalltag = 0x80]) or of a list
    ([smalltag = 0xC0]); the large tag is [smalltag + 55]. *)
Definition puthead (smalltag : Z) (size : Z) : bytes :=
  if size <? 56 then [byte.of_Z (smalltag + size)]
  else let s := big.Bytes size in byte.of_Z (smalltag + 55 + blen s) :: s.

(** [encodeString]: a single byte below [0x80] is its own encoding. *)
Definition encodeString (b : bytes) : bytes :=
  match b with
  | [x] => if byte.unsigned x <=? 0x7F then [x] else puthead 0x80 1 ++ b
  | _ => puthead 0x80 (blen b) ++ b
  end.

(** [writeUint]. *)
Definition writeUint (i : Z) : bytes :=
  if i =? 0 then [byte.of_Z 0x80]
  else if i <? 128 then [byte.of_Z i]
  else let s := big.Bytes i in byte.of_Z (0x80 + blen s) :: s.

(** [writeBigInt]: negative integers are refused. *)
Definition writeBigInt (i : Z) : result bytes :=
  if i <? 0 then Err ErrNegativeBigInt
  else if i =? 0 then Ok [byte.of_Z 0x80]
  else Ok (encodeString (big.Bytes i)).

Fixpoint encode (v : value) : result bytes :=
  match v with
  | Uint n => Ok (writeUint n)
  | BigInt z => writeBigInt z
  | ByteSlice b => Ok (encodeString b)
  | ByteArray b => Ok (encodeString b)
  | ListOf l =>
      payload <- (fix elems (l : list value) : result bytes :=
                    match l with
                    | [] => Ok []
                    | x :: t => bx <- encode x ;; bt <- elems t ;; Ok (bx ++ bt)
                    end) l ;;
      Ok (puthead 0xC0 (blen payload) ++ payload)
  end.

(** [headsize] and [ListSize]. *)
Definition headsize (size : Z) : Z :=
  if size <? 56 then 1 else 1 + blen (big.Bytes size).
Definition ListSize (contentSize : Z) : Z :=
  wrap64 (headsize contentSize + contentSize).

(** *** Decoding from a [Stream]

    The stream is the input that is left.  Inside a list the input is
    the rest of the list's content, and running out of it is an
    [ErrElemTooLarge] instead of an end of file. *)

Inductive kind : Type :=
| KByte (byteval : byte)
| KString
| KList.

Definition eof (inList : bool) : error :=
  if inList then ErrElemTooLarge else ErrEOF.
Definition tooLarge (inList : bool) : error :=
  if inList then ErrElemTooLarge else ErrValueTooLarge.

(** [readUint]: a big-endian integer of [size] bytes (at most 8), without
    leading zero byte when [size > 1]. *)
Definition readUint (inList : bool) (size : Z) (inp : bytes) : result (Z * bytes) :=
  if size =? 0 then Ok (0, inp)
  else if size =? 1 then
    match inp with
    | [] => Err (eof inList)
    | b :: rest => Ok (byte.unsigned b, rest)
    end
  else if blen inp <? size then Err (eof inList)
  else
    let buf := firstn (Z.to_nat size) inp in
    match buf with
    | b :: _ =>
        if byte.unsigned b =? 0 then Err ErrCanonSize
        else Ok (big.SetBytes buf, skipn (Z.to_nat size) inp)
    | [] => Ok (0, inp)
    end.

(** [readKind]: the type tag and size of the next value. *)
Definition readKind (inList : bool) (inp : bytes) : result (kind * Z * bytes) :=
  match inp with
  | [] => Err (eof inList)
  | b :: rest =>
      let bz := byte.unsigned b in
      if bz <? 0x80 then Ok (KByte b, 0, rest)
      else if bz <? 0xB8 then Ok (KString, bz - 0x80, rest)
      else if bz <? 0xC0 then
        '(size, rest') <- readUint inList (bz - 0xB7) rest ;;
        if size <? 56 then Err ErrCanonSize else Ok (KString, size, rest')
      else if bz <? 0xF8 then Ok (KList, bz - 0xC0, rest)
      else
        '(size, rest') <- readUint inList (bz - 0xF7) rest ;;
        if size <? 56 then Err ErrCanonSize else Ok (KList, size, rest')
  end.

(** [s.Kind()]: [readKind] and the check of the size against the input
    that is left. *)
Definition Kind (inList : bool) (inp : bytes) : result (kind * Z * bytes) :=
  '(k, size, rest) <- readKind inList inp ;;
  if blen rest <? size then Err (tooLarge inList) else Ok (k, size, rest).

(** [s.Bytes()]. *)
Definition Bytes (inList : bool) (inp : bytes) : result (bytes * bytes) :=
  '(k, size, rest) <- Kind inList inp ;;
  match k with
  | KByte b => Ok ([b], rest)
  | KString =>
      let b := firstn (Z.to_nat size) rest in
      match b with
      | [x] => if byte.unsigned x <? 128 then Err ErrCanonSize
               else Ok (b, skipn (Z.to_nat size) rest)
      | _ => Ok (b, skipn (Z.to_nat size) rest)
      end
  | KList => Err ErrExpectedString
  end.

(** [s.uint(64)], the decoder of [uint64]. *)
Definition Uint64 (inList : bool) (inp : bytes) : result (Z * bytes) :=
  '(k, size, rest) <- Kind inList inp ;;
  match k with
  | KByte b =>
      if byte.unsigned b =? 0 then Err ErrCanonInt
      else Ok (byte.unsigned b, rest)
  | KString =>
      if 8 <? size then Err ErrUintOverflow
      else
        match readUint inList size rest with
        | Err ErrCanonSize => Err ErrCanonInt
        | Err e => Err e
        | Panic p => Panic p
        | Ok (v, rest') =>
            if (0 <? size) && (v <? 128) then Err ErrCanonSize
            else Ok (v, rest')
        end
  | KList => Err ErrExpectedString
  end.

(** [s.List()]: the content of the list that comes next, and the input
    after it. *)
Definition List (inp : bytes) : result (bytes * bytes) :=
  '(k, size, rest) <- Kind false inp ;;
  match k with
  | KList => Ok (firstn (Z.to_nat size) rest, skipn (Z.to_nat size) rest)
  | _ => Err ErrExpectedList
  end.

(** A struct field: the list must not be at its end. *)
Definition field {A} (dec : bool -> bytes -> result (A * bytes)) (content : bytes)
  : result (A * bytes) :=
  match content with
  | [] => Err ErrTooFewElements
  | _ => dec true content
  end.

(** [s.ListEnd()] after the last field. *)
Definition ListEnd (content : bytes) : result unit :=
  match content with
  | [] => Ok tt
  | _ => Err ErrTooManyElements
  end.

End rlp.

(** ** go-ethereum/crypto and core/types *)

Module ethcrypto.

Definition secp256k1N : Z :=
  0xfffffffffffffffffffffffffffffffebaaedce6af48a03bbfd25e8cd0364141.
Definition secp256k1halfN : Z := secp256k1N / 2.

(** [ValidateSignatureValues(v, r, s, homestead)]. *)
Definition ValidateSignatureValues (v : Z) (r s : Z) (homestead : bool) : bool :=
  if (r <? 1) || (s <? 1) then false
  else if homestead && (secp256k1halfN <? s) then false
  else (r <? secp256k1N) && (s <? secp256k1N) && ((v =? 0) || (v =? 1)).

End ethcrypto.

Module ethtypes.

Record EIP155Signer : Type := mkEIP155Signer { chainId : Z; chainIdMul : Z }.

Definition NewEIP155Signer (chainID : Z) : EIP155Signer :=
  {| chainId := chainID; chainIdMul := chainID * 2 |}.

(** [s.Equal(s2)]: the chain ids compare equal. *)
Definition Equal (s s2 : EIP155Signer) : bool := chainId s2 =? chainId s.

End ethtypes.

(** ** The message *)

(** Modelled from the spec: the declaration of [TxData] is not in [msg.go].
    The field names and their Go types are those [newMsgEthereumTx] fills
    in ([uint64] for the nonce and the gas limit, [[]byte] for the rest);
    the field order is that of the wire payload, the nine fields of an
    Ethereum transaction. *)
Module TxData.
Record t : Type := mk {
  AccountNonce : Z;
  Price : bytes;
  GasLimit : Z;
  Recipient : bytes;
  Amount : bytes;
  Payload : bytes;
  V : bytes;
  R : bytes;
  S : bytes
}.

Definition with_VRS (d : t) (v r s : bytes) : t :=
  mk (AccountNonce d) (Price d) (GasLimit d) (Recipient d) (Amount d)
     (Payload d) v r s.

(** The struct as the RLP encoder sees it. *)
Definition to_value (d : t) : rlp.value :=
  rlp.ListOf [rlp.Uint (AccountNonce d); rlp.ByteSlice (Price d);
              rlp.Uint (GasLimit d); rlp.ByteSlice (Recipient d);
              rlp.ByteSlice (Amount d); rlp.ByteSlice (Payload d);
              rlp.ByteSlice (V d); rlp.ByteSlice (R d); rlp.ByteSlice (S d)].

(** [s.Decode(&data)]: the struct decoder, field by field. *)
Definition decode (inp : bytes) : result (t * bytes) :=
  '(c, rest) <- rlp.List inp ;;
  '(nonce, c) <- rlp.field rlp.Uint64 c ;;
  '(price, c) <- rlp.field rlp.Bytes c ;;
  '(gas, c) <- rlp.field rlp.Uint64 c ;;
  '(to, c) <- rlp.field rlp.Bytes c ;;
  '(amount, c) <- rlp.field rlp.Bytes c ;;
  '(payload, c) <- rlp.field rlp.Bytes c ;;
  '(v, c) <- rlp.field rlp.Bytes c ;;
  '(r, c) <- rlp.field rlp.Bytes c ;;
  '(s, c) <- rlp.field rlp.Bytes c ;;
  _ <- rlp.ListEnd c ;;
  Ok (mk nonce price gas to amount payload v r s, rest).
End TxData.

(** Modelled from the spec: the declaration of [SigCache] is not in
    [msg.go]; it binds a recovered sender to the signer (the chain id) it
    was recovered for, as [VerifySig] builds and reads it. *)
Module SigCache.
Record t : Type := mk { signer : ethtypes.EIP155Signer; from : bytes }.
End SigCache.

(** Modelled from the spec: the declaration of [MsgEthereumTx] is not in
    [msg.go]; these are the fields the methods use.  [hash] is returned by
    [Hash] as an [ethcmn.Hash] and assigned from [rlpHash], so its type is
    [ethcmn.Hash], the array [[32]byte]. *)
Record MsgEthereumTx : Type := mkMsg {
  Data : TxData.t;
  size : Z;
  hash : ethcmn.Hash;
  from : option SigCache.t
}.

Definition with_Data (msg : MsgEthereumTx) (d : TxData.t) : MsgEthereumTx :=
  mkMsg d (size msg) (hash msg) (from msg).
Definition with_hash (msg : MsgEthereumTx) (h : ethcmn.Hash) : MsgEthereumTx :=
  mkMsg (Data msg) (size msg) h (from msg).
Definition with_from (msg : MsgEthereumTx) (c : option SigCache.t) : MsgEthereumTx :=
  mkMsg (Data msg) (size msg) (hash msg) c.

(** [newMsgEthereumTx]; [to], [amount] and [gasPrice] are pointers. *)
Definition newMsgEthereumTx (nonce : Z) (to : option ethcmn.Address)
    (amount : option Z) (gasLimit : Z) (gasPrice : option Z) (payload : bytes)
  : result MsgEthereumTx :=
  let payload :=
    if (0 <? length payload)%nat then ethcmn.CopyBytes payload else payload in
  recipient <- ethcmn.ptr_Address_Bytes to ;;
  let txData := TxData.mk nonce [] gasLimit recipient [] payload [] [] [] in
  let txData :=
    match amount with
    | Some a => TxData.mk (TxData.AccountNonce txData) (TxData.Price txData)
                  (TxData.GasLimit txData) (TxData.Recipient txData)
                  (big.Bytes a) (TxData.Payload txData)
                  (TxData.V txData) (TxData.R txData) (TxData.S txData)
    | None => txData
    end in
  let txData :=
    match gasPrice with
    | Some p => TxData.mk (TxData.AccountNonce txData) (big.Bytes p)
                  (TxData.GasLimit txData) (TxData.Recipient txData)
                  (TxData.Amount txData) (TxData.Payload txData)
                  (TxData.V txData) (TxData.R txData) (TxData.S txData)
    | None => txData
    end in
  Ok (mkMsg txData 0 ethcmn.Hash_zero None).

Definition NewMsgEthereumTx (nonce : Z) (to : option ethcmn.Address)
    (amount : option Z) (gasLimit : Z) (gasPrice : option Z) (payload : bytes)
  : result MsgEthereumTx :=
  newMsgEthereumTx nonce to amount gasLimit gasPrice payload.

Definition NewMsgEthereumTxContract (nonce : Z) (amount : option Z)
    (gasLimit : Z) (gasPrice : option Z) (payload : bytes)
  : result MsgEthereumTx :=
  newMsgEthereumTx nonce None amount gasLimit gasPrice payload.

(** [To]. *)
Definition To (msg : MsgEthereumTx) : option ethcmn.Address :=
  Some (ethcmn.BytesToAddress (TxData.Recipient (Data msg))).

(** [EncodeRLP]. *)
Definition EncodeRLP (msg : MsgEthereumTx) : result bytes :=
  rlp.encode (TxData.to_value (Data msg)).

(** The content of the list [EncodeRLP] writes. *)
Definition wire_content (d : TxData.t) : bytes :=
  rlp.writeUint (TxData.AccountNonce d) ++ rlp.encodeString (TxData.Price d) ++
  rlp.writeUint (TxData.GasLimit d) ++ rlp.encodeString (TxData.Recipient d) ++
  rlp.encodeString (TxData.Amount d) ++ rlp.encodeString (TxData.Payload d) ++
  rlp.encodeString (TxData.V d) ++ rlp.encodeString (TxData.R d) ++
  rlp.encodeString (TxData.S d) ++ [].

(** [DecodeRLP]: the message after decoding, and the stream after it. *)
Definition DecodeRLP (msg : MsgEthereumTx) (s : bytes)
  : result (MsgEthereumTx * bytes) :=
  '(_, sz, _) <- rlp.Kind false s ;;
  '(d, s') <- TxData.decode s ;;
  Ok (mkMsg d (rlp.ListSize sz) (hash msg) (from msg), s').

(** [deriveChainID]. *)
Definition deriveChainID (v : Z) : Z :=
  if big.BitLen v <=? 64 then
    let v := big.Uint64 v in
    if (v =? 27) || (v =? 28) then 0
    else wrap64 (v - 35) / 2
  else (v - 35) / 2.

(** [ChainID]. *)
Definition ChainID (msg : MsgEthereumTx) : Z :=
  deriveChainID (big.SetBytes (TxData.V (Data msg))).

(** ** Hashing, signing and verification

    The primitives of go-ethereum/crypto are parameters:
    [Keccak256] is [ethcrypto.Keccak256], [ecdsaSign] is [ethcrypto.Sign]
    ([None] is its error), [Ecrecover] is [ethcrypto.Ecrecover], and
    [FromECDSAPub priv] is the uncompressed public key of [priv]. *)

Section Primitives.

Variable PrivateKey : Type.
Variable Keccak256 : bytes -> bytes.
Variable ecdsaSign : bytes -> PrivateKey -> option bytes.
Variable Ecrecover : bytes -> bytes -> option bytes.
Variable FromECDSAPub : PrivateKey -> bytes.

(** Modelled from the spec: [rlpHash] is not in [msg.go]; it is the
    256-bit hash of the RLP encoding of its argument, stored in a
    [[32]byte].  When the encoder fails it has written nothing, and
    nothing is hashed. *)
Definition rlpHash (x : rlp.value) : ethcmn.Hash :=
  match rlp.encode x with
  | Ok b => ethcmn.setBytes ethcmn.HashLength (Keccak256 b)
  | _ => ethcmn.setBytes ethcmn.HashLength (Keccak256 [])
  end.

(** [RLPSignBytes]. *)
Definition RLPSignBytes (msg : MsgEthereumTx) (chainID : Z) : ethcmn.Hash :=
  rlpHash (rlp.ListOf [
    rlp.Uint (TxData.AccountNonce (Data msg));
    rlp.BigInt (big.SetBytes (TxData.Price (Data msg)));
    rlp.Uint (TxData.GasLimit (Data msg));
    rlp.ByteArray (ethcmn.BytesToAddress (TxData.Recipient (Data msg)));
    rlp.BigInt (big.SetBytes (TxData.Amount (Data msg)));
    rlp.ByteSlice (TxData.Payload (Data msg));
    rlp.BigInt chainID;
    rlp.Uint 0;
    rlp.Uint 0 ]).

(** [Hash]: the returned hash and the message after the call.  The
    message is an [rlp.Encoder], so [rlpHash(msg)] hashes what
    [EncodeRLP] writes. *)
Definition Hash (msg : MsgEthereumTx) : ethcmn.Hash * MsgEthereumTx :=
  let msg :=
    if (length (ethcmn.Hash_Bytes (hash msg)) =? 0)%nat
    then with_hash msg (rlpHash (TxData.to_value (Data msg)))
    else msg in
  (hash msg, msg).

(** [Sign]. *)
Definition Sign (chainID : Z) (priv : PrivateKey) (msg : MsgEthereumTx)
  : result MsgEthereumTx :=
  let txHash := RLPSignBytes msg chainID in
  match ecdsaSign txHash priv with
  | None => Panic SignFailed
  | Some sig =>
      if negb (length sig =? 65)%nat then Panic WrongSignatureSize
      else
        let r := big.SetBytes (slice_to 32 sig) in
        let s := big.SetBytes (slice_to 32 (slice_from 32 sig)) in
        let sig64 := byte.unsigned (nth 64 sig Byte.x00) in
        let v :=
          if big.Sign chainID =? 0
          then big.SetBytes [byte.of_Z (wrap8 (sig64 + 27))]
          else
            let v := wrap8 (sig64 + 35) in
            let chainIDMul := chainID * 2 in
            v + chainIDMul in
        Ok (with_Data msg
              (TxData.with_VRS (Data msg)
                 (big.Bytes v) (big.Bytes r) (big.Bytes s)))
  end.

(** [copy(addr[:], src)] into a zeroed array of [n] bytes. *)
Definition copy_into (n : nat) (src : bytes) : bytes :=
  let c := firstn n src in c ++ repeat Byte.x00 (n - length c).

(** [recoverEthSig]; the second component counts the calls of
    [Ecrecover], starting from [calls]. *)
Definition recoverEthSig (R S Vb : Z) (sigHash : ethcmn.Hash) (calls : nat)
  : result ethcmn.Address * nat :=
  if 8 <? big.BitLen Vb then (Err ErrInvalidSignature, calls)
  else
    let V := wrap8 (wrap64 (big.Uint64 Vb - 27)) in
    if negb (ethcrypto.ValidateSignatureValues V R S true)
    then (Err ErrInvalidSignature, calls)
    else
      let r := big.Bytes R in
      let s := big.Bytes S in
      match right_align 32 r, right_align 32 s with
      | Ok r32, Ok s32 =>
          let sig := r32 ++ s32 ++ [byte.of_Z V] in
          match Ecrecover (ethcmn.Hash_Bytes sigHash) sig with
          | None => (Err ErrRecoverFailed, Datatypes.S calls)
          | Some pub =>
              match pub with
              | [] => (Err ErrInvalidPublicKey, Datatypes.S calls)
              | p0 :: xy =>
                  if negb (byte.unsigned p0 =? 4)
                  then (Err ErrInvalidPublicKey, Datatypes.S calls)
                  else
                    let h := Keccak256 xy in
                    if (length h <? 12)%nat
                    then (Panic SliceBoundsOutOfRange, Datatypes.S calls)
                    else (Ok (copy_into ethcmn.AddressLength (slice_from 12 h)),
                          Datatypes.S calls)
              end
          end
      | Panic p, _ => (Panic p, calls)
      | _, Panic p => (Panic p, calls)
      | Err e, _ => (Err e, calls)
      | _, Err e => (Err e, calls)
      end.

(** [VerifySig]: the result, the message after the call (its cache may
    have been replaced) and the count of [Ecrecover] calls. *)
Definition VerifySig (chainID : Z) (msg : MsgEthereumTx) (calls : nat)
  : result ethcmn.Address * MsgEthereumTx * nat :=
  let r := big.SetBytes (TxData.R (Data msg)) in
  let s := big.SetBytes (TxData.S (Data msg)) in
  let v := big.SetBytes (TxData.V (Data msg)) in
  let signer := ethtypes.NewEIP155Signer chainID in
  let miss :=
    if big.Sign chainID =? 0 then (Err ErrChainIDZero, msg, calls)
    else
      let chainIDMul := chainID * 2 in
      let V := v - chainIDMul in
      let V := V - 8 in
      let sigHash := RLPSignBytes msg chainID in
      match recoverEthSig r s V sigHash calls with
      | (Ok sender, calls) =>
          (Ok sender,
           with_from msg
             (Some (SigCache.mk signer (ethcmn.Address_Bytes sender))),
           calls)
      | (Err e, calls) => (Err e, msg, calls)
      | (Panic p, calls) => (Panic p, msg, calls)
      end in
  match from msg with
  | Some cache =>
      if ethtypes.Equal signer (SigCache.signer cache)
      then (Ok (ethcmn.BytesToAddress (SigCache.from cache)), msg, calls)
      else miss
  | None => miss
  end.

(** [ethcrypto.PubkeyToAddress] of the public key of [priv]. *)
Definition PubkeyToAddress (priv : PrivateKey) : ethcmn.Address :=
  ethcmn.BytesToAddress (slice_from 12 (Keccak256 (slice_from 1 (FromECDSAPub priv)))).

End Primitives.

(** The sender cache has no entry for [chainID]: it is empty, or bound
    to another chain id. *)
Definition no_cache_entry (chainID : Z) (msg : MsgEthereumTx) : Prop :=
  forall c, from msg = Some c -> ethtypes.chainId (SigCache.signer c) <> chainID.

(** ** The messages a caller can hold

    A message is built by the constructor, or is the zero value
    [MsgEthereumTx{}] to decode into; its exported field [Data] can be
    assigned; the methods of this file do the rest.  The fields [size],
    [hash] and [from] are not exported. *)

Section Lifecycle.

Variable PrivateKey : Type.
Variable Keccak256 : bytes -> bytes.
Variable ecdsaSign : bytes -> PrivateKey -> option bytes.
Variable Ecrecover : bytes -> bytes -> option bytes.

Inductive reachable : MsgEthereumTx -> Prop :=
| reach_new nonce to amount gasLimit gasPrice payload msg :
    newMsgEthereumTx nonce to amount gasLimit gasPrice payload = Ok msg ->
    reachable msg
| reach_zero d :
    reachable (mkMsg d 0 ethcmn.Hash_zero None)
| reach_Data msg d :
    reachable msg -> reachable (with_Data msg d)
| reach_DecodeRLP msg s msg' s' :
    reachable msg -> DecodeRLP msg s = Ok (msg', s') -> reachable msg'
| reach_Hash msg :
    reachable msg -> reachable (snd (Hash Keccak256 msg))
| reach_Sign msg chainID priv msg' :
    reachable msg ->
    Sign PrivateKey Keccak256 ecdsaSign chainID priv msg = Ok msg' ->
    reachable msg'
| reach_VerifySig msg chainID calls r msg' calls' :
    reachable msg ->
    VerifySig Keccak256 Ecrecover chainID msg calls = (r, msg', calls') ->
    reachable msg'.

(** What the caches of a message hold: the hash field is a 32-byte
    array, and a cached sender is a 20-byte address bound to a signer
    whose chain id is not zero. *)
Definition caches_ok (msg : MsgEthereumTx) : Prop :=
  length (hash msg) = 32%nat /\
  match from msg with
  | None => True
  | Some c =>
      ethtypes.chainId (SigCache.signer c) <> 0 /\
      length (SigCache.from c) = 20%nat
  end.

End Lifecycle.

(** ** The signing payload in the words of the specification

    The ordered tuple [(nonce, gasPrice, gasLimit, recipient, amount,
    payload, chainId, 0, 0)]: each integer is encoded as its minimal
    big-endian byte string, each byte string is encoded with its length
    prefix, and the tuple is wrapped in a list length prefix. *)
Module Spec.

Inductive field : Type :=
| Int (n : Z)
| Str (b : bytes).

Definition encode_field (f : field) : bytes :=
  match f with
  | Int n => rlp.encodeString (big.Bytes n)
  | Str b => rlp.encodeString b
  end.

Definition encode_tuple (fs : list field) : bytes :=
  let payload := concat (map encode_field fs) in
  rlp.puthead 0xC0 (blen payload) ++ payload.

Definition signing_payload (nonce gasPrice gasLimit : Z) (recipient : bytes)
    (amount : Z) (payload : bytes) (chainId : Z) : bytes :=
  encode_tuple [Int nonce; Int gasPrice; Int gasLimit; Str recipient;
                Int amount; Str payload; Int chainId; Int 0; Int 0].

End Spec.

(** ** The contracts of the primitives

    What go-ethereum documents of them: [ethcrypto.Sign] on a 32-byte
    digest and a valid key returns a 65-byte signature [R || S || V] in
    canonical (low-S) form with [V] 0 or 1, from which
    [ethcrypto.Ecrecover] recovers the signer's public key; an uncompressed
    public key starts with the byte 4; a Keccak-256 digest has 32 bytes. *)

Section Contracts.

Variable PrivateKey : Type.
Variable validKey : PrivateKey -> Prop.
Variable Keccak256 : bytes -> bytes.
Variable ecdsaSign : bytes -> PrivateKey -> option bytes.
Variable Ecrecover : bytes -> bytes -> option bytes.
Variable FromECDSAPub : PrivateKey -> bytes.

Definition sig_R (sig : bytes) : Z := big.SetBytes (slice_to 32 sig).
Definition sig_S (sig : bytes) : Z := big.SetBytes (slice_to 32 (slice_from 32 sig)).
Definition sig_V (sig : bytes) : Z := byte.unsigned (nth 64 sig Byte.x00).

Definition SignContract : Prop :=
  forall (h : bytes) (priv : PrivateKey),
    validKey priv -> length h = 32%nat ->
    exists sig,
      ecdsaSign h priv = Some sig /\
      length sig = 65%nat /\
      ethcrypto.ValidateSignatureValues (sig_V sig) (sig_R sig) (sig_S sig) true = true /\
      Ecrecover h sig = Some (FromECDSAPub priv).

Definition PubkeyContract : Prop :=
  forall priv, validKey priv -> exists xy, FromECDSAPub priv = Byte.x04 :: xy.

Definition KeccakContract : Prop :=
  forall b, length (Keccak256 b) = 32%nat.

End Contracts.

(** A small instance of the primitives, to run the model on: two keys, a
    signature that carries the key in [R], and the last 32 bytes of the
    input as digest. *)
Module Toy.

Definition PrivateKey : Type := bool.
Definition validKey (k : PrivateKey) : Prop := True.

Definition Keccak256 (b : bytes) : bytes := ethcmn.setBytes 32 b.

Definition FromECDSAPub (k : PrivateKey) : bytes :=
  Byte.x04 :: repeat (if k then Byte.x01 else Byte.x02) 64.

Definition ecdsaSign (h : bytes) (k : PrivateKey) : option bytes :=
  Some (repeat Byte.x00 31 ++ [if k then Byte.x01 else Byte.x02]
        ++ repeat Byte.x00 31 ++ [Byte.x01] ++ [Byte.x00]).

Definition Ecrecover (h sig : bytes) : option bytes :=
  match nth 31 sig Byte.x00 with
  | Byte.x01 => Some (FromECDSAPub true)
  | Byte.x02 => Some (FromECDSAPub false)
  | _ => None
  end.

Definition addr1 : ethcmn.Address := repeat Byte.x11 20.

(** [NewMsgEthereumTx(0, &addr1, 0, 21000, 1, nil)]. *)
Definition tx0 : MsgEthereumTx :=
  mkMsg (TxData.mk 0 [Byte.x01] 21000 addr1 [] [] [] [] []) 0 ethcmn.Hash_zero None.

(** [tx0] after [Sign(1, true)], and after [VerifySig(1)]. *)
Definition signed : MsgEthereumTx :=
  with_Data tx0 (TxData.with_VRS (Data tx0) [Byte.x25] [Byte.x01] [Byte.x01]).
Definition verified : MsgEthereumTx :=
  with_from signed
    (Some (SigCache.mk (ethtypes.NewEIP155Signer 1) (repeat Byte.x01 20))).

(** A wire input whose amount is the string [00 01]. *)
Definition wire_amount_leading_zero : bytes :=
  map byte.of_Z [0xcd; 0x80; 0x01; 0x82; 0x52; 0x08; 0x80; 0x82; 0x00; 0x01;
                 0x80; 0x80; 0x80; 0x80].

End Toy.

(** ** The rest of the message interface *)

(** The two errors of [ValidateBasic], both [types.ErrInvalidValue] with
    a message. *)
Inductive basic_error : Type :=
| ErrPriceNotPositive     (* "price must be positive %s" *)
| ErrAmountNegative.      (* "amount cannot be negative" *)

(** [ValidateBasic]; [None] is the nil error. *)
Definition ValidateBasic (msg : MsgEthereumTx) : option basic_error :=
  let gasPrice := big.SetBytes (TxData.Price (Data msg)) in
  if negb (big.Sign gasPrice =? 1) then Some ErrPriceNotPositive
  else if big.Sign (big.SetBytes (TxData.Amount (Data msg))) =? -1
       then Some ErrAmountNegative
       else None.

(** [Fee]: [gasprice * gaslimit]. *)
Definition Fee (msg : MsgEthereumTx) : Z :=
  let gasPrice := big.SetBytes (TxData.Price (Data msg)) in
  let gasLimit := TxData.GasLimit (Data msg) in
  gasPrice * gasLimit.

(** [Cost]: [amount + gasprice * gaslimit]. *)
Definition Cost (msg : MsgEthereumTx) : Z :=
  let total := Fee msg in
  total + big.SetBytes (TxData.Amount (Data msg)).

(** A byte slice without leading zero byte. *)
Definition no_leading_zero (b : bytes) : Prop :=
  match b with
  | [] => True
  | x :: _ => byte.unsigned x <> 0
  end.

(** * Properties *)

Ltac break_match_hyp :=
  match goal with
  | H : context [match ?x with _ => _ end] |- _ => destruct x eqn:?
  end.

Ltac break_match_goal :=
  match goal with
  | |- context [match ?x with _ => _ end] => destruct x eqn:?
  end.

(** ** Big integers and their bytes *)

Lemma SetBytes_nonneg b : 0 <= big.SetBytes b.
Proof. unfold big.SetBytes. apply le_combine_bound. Qed.

Lemma SetBytes_bound b : big.SetBytes b < 2 ^ (8 * blen b).
Proof.
  unfold big.SetBytes, blen.
  pose proof (le_combine_bound (rev b)) as H. rewrite length_rev in H. lia.
Qed.

Lemma BitLen_nonneg x : 0 <= big.BitLen x.
Proof.
  unfold big.BitLen. destruct (x =? 0); [lia|].
  pose proof (Z.log2_nonneg (Z.abs x)). lia.
Qed.

Lemma BitLen_spec x : 0 <= x -> x < 2 ^ big.BitLen x.
Proof.
  intros Hx. unfold big.BitLen. destruct (Z.eqb_spec x 0) as [->|Hne].
  - reflexivity.
  - rewrite Z.abs_eq by lia.
    pose proof (Z.log2_spec x ltac:(lia)) as [_ H]. rewrite <- Z.add_1_r in H. exact H.
Qed.

Lemma BitLen_le x n : 0 <= x < 2 ^ n -> 0 <= n -> big.BitLen x <= n.
Proof.
  intros [Hx Hlt] Hn. unfold big.BitLen. destruct (Z.eqb_spec x 0) as [->|Hne]; [lia|].
  rewrite Z.abs_eq by lia.
  assert (Z.log2 x < n) by (apply Z.log2_lt_pow2; lia). lia.
Qed.

Lemma byteLen_spec x : 0 <= x -> x < 2 ^ (Z.of_nat (big.byteLen x) * 8).
Proof.
  intros Hx. unfold big.byteLen.
  pose proof (BitLen_nonneg x) as Hn. pose proof (BitLen_spec x Hx) as Hb.
  rewrite Z2Nat.id by (apply Z.div_pos; lia).
  eapply Z.lt_le_trans; [exact Hb|].
  apply Z.pow_le_mono_r; [lia|].
  pose proof (Z.div_mod (big.BitLen x + 7) 8 ltac:(lia)).
  pose proof (Z.mod_pos_bound (big.BitLen x + 7) 8 ltac:(lia)). lia.
Qed.

Lemma SetBytes_Bytes x : 0 <= x -> big.SetBytes (big.Bytes x) = x.
Proof.
  intros Hx. unfold big.SetBytes, big.Bytes.
  rewrite rev_involutive, le_combine_split, Z.abs_eq by lia.
  apply Z.mod_small. split; [lia|]. apply byteLen_spec; lia.
Qed.

Lemma length_Bytes x : length (big.Bytes x) = big.byteLen x.
Proof. unfold big.Bytes. rewrite length_rev. apply length_le_split. Qed.

Lemma byteLen_le x n : 0 <= x < 2 ^ (8 * Z.of_nat n) -> (big.byteLen x <= n)%nat.
Proof.
  intros Hx. unfold big.byteLen.
  pose proof (BitLen_le x (8 * Z.of_nat n) Hx ltac:(lia)).
  pose proof (BitLen_nonneg x).
  assert ((big.BitLen x + 7) / 8 < Z.of_nat n + 1).
  { apply Z.div_lt_upper_bound; lia. }
  assert (0 <= (big.BitLen x + 7) / 8) by (apply Z.div_pos; lia).
  lia.
Qed.

(** Padding the minimal encoding back to the width it was read from. *)
Lemma right_align_Bytes_SetBytes n b :
  length b = n -> right_align n (big.Bytes (big.SetBytes b)) = Ok b.
Proof.
  intros Hlen. unfold right_align. rewrite length_Bytes.
  pose proof (SetBytes_nonneg b) as H0. pose proof (SetBytes_bound b) as H1.
  unfold blen in H1. rewrite Hlen in H1.
  assert (Hle : (big.byteLen (big.SetBytes b) <= n)%nat) by (apply byteLen_le; lia).
  destruct (Nat.leb_spec (big.byteLen (big.SetBytes b)) n) as [_|]; [|lia].
  f_equal. unfold big.Bytes. rewrite Z.abs_eq by lia.
  assert (E : le_split (big.byteLen (big.SetBytes b)) (big.SetBytes b)
              ++ repeat Byte.x00 (n - big.byteLen (big.SetBytes b)) = rev b).
  { apply le_combine_inj.
    - rewrite length_app, length_le_split, repeat_length, length_rev. lia.
    - rewrite le_combine_app_0, le_combine_split.
      change (le_combine (rev b)) with (big.SetBytes b).
      apply Z.mod_small. split; [lia|].
      apply byteLen_spec; lia. }
  apply (f_equal (@rev byte)) in E.
  rewrite rev_app_distr, rev_repeat, rev_involutive in E. exact E.
Qed.

(** ** Fixed-size arrays *)

Lemma length_setBytes n b : length (ethcmn.setBytes n b) = n.
Proof.
  unfold ethcmn.setBytes. rewrite length_app, repeat_length, length_skipn. lia.
Qed.

Lemma setBytes_id n b : length b = n -> ethcmn.setBytes n b = b.
Proof.
  intros H. unfold ethcmn.setBytes.
  replace (length b - n)%nat with 0%nat by lia. simpl.
  replace (n - length b)%nat with 0%nat by lia. reflexivity.
Qed.

Lemma length_copy_into n b : length (copy_into n b) = n.
Proof.
  unfold copy_into. rewrite length_app, repeat_length, length_firstn. lia.
Qed.

Lemma copy_into_id n b : length b = n -> copy_into n b = b.
Proof.
  intros H. unfold copy_into. rewrite firstn_all2 by lia.
  replace (n - length b)%nat with 0%nat by lia. apply app_nil_r.
Qed.

Lemma signature_split sig :
  length sig = 65%nat ->
  slice_to 32 sig ++ slice_to 32 (slice_from 32 sig) ++ [nth 64 sig Byte.x00] = sig.
Proof.
  intros H. unfold slice_to, slice_from.
  rewrite <- (firstn_skipn 32 sig) at 4. f_equal.
  rewrite <- (firstn_skipn 32 (skipn 32 sig)) at 2. f_equal.
  rewrite skipn_skipn. simpl (32 + 32)%nat.
  assert (Hl : length (skipn 64 sig) = 1%nat) by (rewrite length_skipn; lia).
  rewrite <- (firstn_skipn 64 sig) at 1.
  rewrite app_nth2 by (rewrite length_firstn; lia).
  rewrite length_firstn. replace (64 - Nat.min 64 (length sig))%nat with 0%nat by lia.
  destruct (skipn 64 sig) as [|x [|y t]]; simpl in Hl; try discriminate. reflexivity.
Qed.

(** ** Signature values *)

Lemma ValidateSignatureValues_true v r s :
  ethcrypto.ValidateSignatureValues v r s true = true ->
  (v = 0 \/ v = 1) /\ 1 <= r < ethcrypto.secp256k1N /\ 1 <= s <= ethcrypto.secp256k1halfN.
Proof.
  unfold ethcrypto.ValidateSignatureValues. intros H.
  destruct (Z.ltb_spec r 1); [discriminate|].
  destruct (Z.ltb_spec s 1); [discriminate|]. simpl in H.
  destruct (Z.ltb_spec ethcrypto.secp256k1halfN s); [discriminate|].
  apply andb_prop in H as [H Hv]. apply andb_prop in H as [Hr Hs].
  apply Z.ltb_lt in Hr. apply orb_prop in Hv.
  rewrite !Z.eqb_eq in Hv. lia.
Qed.

Lemma ValidateSignatureValues_highS v r s :
  ethcrypto.secp256k1halfN < s ->
  ethcrypto.ValidateSignatureValues v r s true = false.
Proof.
  intros H. unfold ethcrypto.ValidateSignatureValues.
  destruct ((r <? 1) || (s <? 1)); [reflexivity|].
  apply Z.ltb_lt in H. rewrite H. reflexivity.
Qed.

(** The signing hash does not read the signature fields or the caches. *)
Lemma RLPSignBytes_Data K msg msg' chainID :
  TxData.AccountNonce (Data msg') = TxData.AccountNonce (Data msg) ->
  TxData.Price (Data msg') = TxData.Price (Data msg) ->
  TxData.GasLimit (Data msg') = TxData.GasLimit (Data msg) ->
  TxData.Recipient (Data msg') = TxData.Recipient (Data msg) ->
  TxData.Amount (Data msg') = TxData.Amount (Data msg) ->
  TxData.Payload (Data msg') = TxData.Payload (Data msg) ->
  RLPSignBytes K msg' chainID = RLPSignBytes K msg chainID.
Proof. intros. unfold RLPSignBytes. congruence. Qed.

Lemma length_RLPSignBytes K msg chainID :
  length (RLPSignBytes K msg chainID) = 32%nat.
Proof.
  unfold RLPSignBytes, rlpHash.
  destruct (rlp.encode _); apply length_setBytes.
Qed.

(** ** Chain-id derivation *)

Lemma BitLen_le_inv x n : 0 <= x -> big.BitLen x <= n -> x < 2 ^ n.
Proof.
  intros Hx Hn. eapply Z.lt_le_trans; [apply BitLen_spec; exact Hx|].
  apply Z.pow_le_mono_r; lia.
Qed.

(** From 35 on, [deriveChainID] is the integer quotient. *)
Lemma deriveChainID_protected V : 35 <= V -> deriveChainID V = (V - 35) / 2.
Proof.
  intros HV. unfold deriveChainID.
  destruct (Z.leb_spec (big.BitLen V) 64) as [Hb|Hb]; [|reflexivity].
  pose proof (BitLen_le_inv V 64 ltac:(lia) Hb) as Hlt.
  unfold big.Uint64, wrap64. rewrite Z.abs_eq by lia.
  rewrite (Z.mod_small V) by lia.
  destruct (Z.eqb_spec V 27); [lia|]. destruct (Z.eqb_spec V 28); [lia|].
  simpl. rewrite Z.mod_small by lia. reflexivity.
Qed.

(** ** The sender cache *)

Section Cache.

Variable PrivateKey : Type.
Variable Keccak256 : bytes -> bytes.
Variable ecdsaSign : bytes -> PrivateKey -> option bytes.
Variable Ecrecover : bytes -> bytes -> option bytes.

(** A recovered sender is a 20-byte address, and finding it took one
    call of [Ecrecover]. *)
Lemma recoverEthSig_Ok R S Vb h calls a calls' :
  recoverEthSig Keccak256 Ecrecover R S Vb h calls = (Ok a, calls') ->
  length a = 20%nat /\ calls' = Datatypes.S calls.
Proof.
  unfold recoverEthSig. intros H.
  repeat break_match_hyp; try discriminate.
  injection H as <- <-. split; [apply length_copy_into | reflexivity].
Qed.

(** A cache entry for the same chain id answers the call. *)
Lemma VerifySig_hit chainID msg calls c :
  from msg = Some c ->
  ethtypes.chainId (SigCache.signer c) = chainID ->
  VerifySig Keccak256 Ecrecover chainID msg calls =
    (Ok (ethcmn.BytesToAddress (SigCache.from c)), msg, calls).
Proof.
  intros Hf Hc. unfold VerifySig. rewrite Hf.
  unfold ethtypes.Equal. simpl ethtypes.chainId. rewrite Hc, Z.eqb_refl. reflexivity.
Qed.

(** A cache entry for another chain id is not used: the call does what
    it does on a message without cache entry, and on an error the entry
    stays. *)
Lemma VerifySig_miss chainID msg calls c :
  from msg = Some c ->
  ethtypes.chainId (SigCache.signer c) <> chainID ->
  VerifySig Keccak256 Ecrecover chainID msg calls =
    let '(r, m, n) := VerifySig Keccak256 Ecrecover chainID (with_from msg None) calls in
    (r, match r with Ok _ => m | _ => msg end, n).
Proof.
  intros Hf Hc. unfold VerifySig. rewrite Hf. simpl from.
  unfold ethtypes.Equal. simpl ethtypes.chainId.
  destruct (Z.eqb_spec (ethtypes.chainId (SigCache.signer c)) chainID) as [E|_];
    [contradiction|].
  destruct (big.Sign chainID =? 0); [reflexivity|].
  simpl Data.
  replace (RLPSignBytes Keccak256 (with_from msg None) chainID)
    with (RLPSignBytes Keccak256 msg chainID) by reflexivity.
  destruct (recoverEthSig _ _ _ _ _ _ _) as [[a|e|p] n]; reflexivity.
Qed.

(** What [VerifySig] leaves in the message. *)
Lemma VerifySig_state chainID msg calls r msg' calls' :
  VerifySig Keccak256 Ecrecover chainID msg calls = (r, msg', calls') ->
  msg' = msg \/
  exists a, r = Ok a /\ length a = 20%nat /\ chainID <> 0 /\
            msg' = with_from msg (Some (SigCache.mk (ethtypes.NewEIP155Signer chainID) a)).
Proof.
  unfold VerifySig. intros H.
  assert (Hmiss :
    (if big.Sign chainID =? 0 then (Err ErrChainIDZero, msg, calls)
     else
       match recoverEthSig Keccak256 Ecrecover
               (big.SetBytes (TxData.R (Data msg))) (big.SetBytes (TxData.S (Data msg)))
               (big.SetBytes (TxData.V (Data msg)) - chainID * 2 - 8)
               (RLPSignBytes Keccak256 msg chainID) calls with
       | (Ok sender, calls0) =>
           (Ok sender,
            with_from msg (Some (SigCache.mk (ethtypes.NewEIP155Signer chainID)
                                   (ethcmn.Address_Bytes sender))), calls0)
       | (Err e, calls0) => (Err e, msg, calls0)
       | (Panic p, calls0) => (Panic p, msg, calls0)
       end) = (r, msg', calls') ->
    msg' = msg \/
    exists a, r = Ok a /\ length a = 20%nat /\ chainID <> 0 /\
              msg' = with_from msg (Some (SigCache.mk (ethtypes.NewEIP155Signer chainID) a))).
  { clear H. intros H. unfold big.Sign in H.
    destruct (Z.eqb_spec (Z.sgn chainID) 0) as [|Hs].
    - injection H as _ <- _. left; reflexivity.
    - destruct (recoverEthSig _ _ _ _ _ _ _) as [[a|e|p] n] eqn:E.
      + injection H as <- <- <-. right. exists a.
        apply recoverEthSig_Ok in E as [Hl _].
        repeat split; try assumption.
        intros ->. apply Hs. reflexivity.
      + injection H as _ <- _. left; reflexivity.
      + injection H as _ <- _. left; reflexivity. }
  destruct (from msg) as [c|]; [|exact (Hmiss H)].
  destruct (ethtypes.Equal _ _); [|exact (Hmiss H)].
  injection H as _ <- _. left; reflexivity.
Qed.

(** No method of this file stores a hash in the [hash] field: this is
    the zero hash in every message a caller can hold. *)
Lemma reachable_hash msg :
  reachable PrivateKey Keccak256 ecdsaSign Ecrecover msg ->
  hash msg = ethcmn.Hash_zero.
Proof.
  induction 1 as [nonce to amount gasLimit gasPrice payload msg Hnew
                 | d | msg d _ IH | msg s msg' s' _ IH Hdec | msg _ IH
                 | msg chainID priv msg' _ IH Hsign
                 | msg chainID calls r msg' calls' _ IH Hver].
  - unfold newMsgEthereumTx in Hnew. destruct to; simpl in Hnew; [|discriminate].
    injection Hnew as <-. reflexivity.
  - reflexivity.
  - exact IH.
  - unfold DecodeRLP in Hdec.
    destruct (rlp.Kind false s) as [[[k sz] t]|e|p]; simpl in Hdec; try discriminate.
    destruct (TxData.decode s) as [[d t']|e|p]; simpl in Hdec; try discriminate.
    injection Hdec as <- _. exact IH.
  - unfold Hash. rewrite IH. simpl. exact IH.
  - unfold Sign in Hsign.
    destruct (ecdsaSign _ _); [|discriminate].
    destruct (negb _); [discriminate|]. injection Hsign as <-. exact IH.
  - apply VerifySig_state in Hver as [-> | (a & _ & _ & _ & ->)]; exact IH.
Qed.

(** The caches keep their shape. *)
Lemma reachable_caches_ok msg :
  reachable PrivateKey Keccak256 ecdsaSign Ecrecover msg ->
  caches_ok msg.
Proof.
  intros Hr. split; [rewrite (reachable_hash msg Hr); reflexivity|].
  induction Hr as [nonce to amount gasLimit gasPrice payload msg Hnew
                 | d | msg d _ IH | msg s msg' s' _ IH Hdec | msg _ IH
                 | msg chainID priv msg' _ IH Hsign
                 | msg chainID calls r msg' calls' _ IH Hver].
  - unfold newMsgEthereumTx in Hnew. destruct to; simpl in Hnew; [|discriminate].
    injection Hnew as <-. exact I.
  - exact I.
  - exact IH.
  - unfold DecodeRLP in Hdec.
    destruct (rlp.Kind false s) as [[[k sz] t]|e|p]; simpl in Hdec; try discriminate.
    destruct (TxData.decode s) as [[d t']|e|p]; simpl in Hdec; try discriminate.
    injection Hdec as <- _. exact IH.
  - unfold Hash. destruct (_ =? _)%nat; exact IH.
  - unfold Sign in Hsign.
    destruct (ecdsaSign _ _); [|discriminate].
    destruct (negb _); [discriminate|]. injection Hsign as <-. exact IH.
  - apply VerifySig_state in Hver as [-> | (a & _ & Hl & Hc & ->)]; [exact IH|].
    simpl. split; assumption.
Qed.

(** C5. [VerifySig] with chain id 0 returns the error "chainID cannot be
    zero", on every message a caller can hold, and leaves the message as
    it is without calling [Ecrecover]; so does [VerifySig(0)] after
    [Sign(0, key)]. *)
Theorem VerifySig_zero_chainID msg calls :
  reachable PrivateKey Keccak256 ecdsaSign Ecrecover msg ->
  VerifySig Keccak256 Ecrecover 0 msg calls = (Err ErrChainIDZero, msg, calls) /\
  (forall priv signed,
      Sign PrivateKey Keccak256 ecdsaSign 0 priv msg = Ok signed ->
      VerifySig Keccak256 Ecrecover 0 signed calls = (Err ErrChainIDZero, signed, calls)).
Proof.
  assert (Hz : forall m, reachable PrivateKey Keccak256 ecdsaSign Ecrecover m ->
               VerifySig Keccak256 Ecrecover 0 m calls = (Err ErrChainIDZero, m, calls)).
  { intros m Hm. apply reachable_caches_ok in Hm as [_ Hc].
    unfold VerifySig. destruct (from m) as [c|]; [|reflexivity].
    destruct Hc as [Hc _]. unfold ethtypes.Equal. simpl ethtypes.chainId.
    destruct (Z.eqb_spec (ethtypes.chainId (SigCache.signer c)) 0); [contradiction|].
    reflexivity. }
  intros Hr. split; [apply Hz; exact Hr|].
  intros priv signed Hs. apply Hz. eapply reach_Sign; eassumption.
Qed.

(** C9. After a call of [VerifySig(chainID)] that returned an address, a
    second call with the same chain id returns the same address from the
    cache: the count of [Ecrecover] calls and the message stay as they
    are.  A call with another chain id does not use the cache entry: it
    returns what it returns on the message without cache entry, after
    the same calls of [Ecrecover]. *)
Theorem VerifySig_cache chainID msg calls addr msg1 calls1 :
  VerifySig Keccak256 Ecrecover chainID msg calls = (Ok addr, msg1, calls1) ->
  VerifySig Keccak256 Ecrecover chainID msg1 calls1 = (Ok addr, msg1, calls1) /\
  (forall chainID' calls2,
      chainID' <> chainID ->
      VerifySig Keccak256 Ecrecover chainID' msg1 calls2 =
        let '(r, m, n) :=
          VerifySig Keccak256 Ecrecover chainID' (with_from msg1 None) calls2 in
        (r, match r with Ok _ => m | _ => msg1 end, n)).
Proof.
  intros H.
  assert (Hc : exists c, from msg1 = Some c /\
                         ethtypes.chainId (SigCache.signer c) = chainID /\
                         ethcmn.BytesToAddress (SigCache.from c) = addr).
  { apply VerifySig_state in H as Hs.
    destruct Hs as [-> | (a & Ha & Hl & _ & ->)].
    - unfold VerifySig in H.
      assert (Hmiss : forall c0,
        from msg = c0 ->
        (if big.Sign chainID =? 0 then (Err ErrChainIDZero, msg, calls)
         else
           match recoverEthSig Keccak256 Ecrecover
                   (big.SetBytes (TxData.R (Data msg))) (big.SetBytes (TxData.S (Data msg)))
                   (big.SetBytes (TxData.V (Data msg)) - chainID * 2 - 8)
                   (RLPSignBytes Keccak256 msg chainID) calls with
           | (Ok sender, calls0) =>
               (Ok sender,
                with_from msg (Some (SigCache.mk (ethtypes.NewEIP155Signer chainID)
                                       (ethcmn.Address_Bytes sender))), calls0)
           | (Err e, calls0) => (Err e, msg, calls0)
           | (Panic p, calls0) => (Panic p, msg, calls0)
           end) = (Ok addr, msg, calls1) ->
        exists c, c0 = Some c /\
                  ethtypes.chainId (SigCache.signer c) = chainID /\
                  ethcmn.BytesToAddress (SigCache.from c) = addr).
      { clear H. intros c0 Hf Hm.
        destruct (big.Sign chainID =? 0); [discriminate|].
        destruct (recoverEthSig _ _ _ _ _ _ _) as [[a|e|p] n] eqn:E; try discriminate.
        injection Hm as -> Hm _.
        apply recoverEthSig_Ok in E as [Hl _].
        apply (f_equal from) in Hm. simpl in Hm. rewrite Hf in Hm. rewrite <- Hm.
        eexists. split; [reflexivity|]. split; [reflexivity|].
        apply setBytes_id. exact Hl. }
      destruct (from msg) as [c|] eqn:Hf.
      + unfold ethtypes.Equal in H. simpl ethtypes.chainId in H.
        destruct (Z.eqb_spec (ethtypes.chainId (SigCache.signer c)) chainID) as [E|Hne].
        * injection H as <- _. exists c. auto.
        * destruct (Hmiss _ eq_refl H) as (c' & Hc' & ? & ?).
          injection Hc' as <-. exists c. auto.
      + destruct (Hmiss _ eq_refl H) as (c' & Hc' & _). discriminate.
    - injection Ha as <-. eexists. split; [reflexivity|]. split; [reflexivity|].
      apply setBytes_id. exact Hl. }
  destruct Hc as (c & Hf & Hcid & Ha). split.
  - rewrite (VerifySig_hit chainID msg1 calls1 c Hf Hcid), Ha. reflexivity.
  - intros chainID' calls2 Hne.
    apply (VerifySig_miss chainID' msg1 calls2 c Hf). congruence.
Qed.

End Cache.

(** ** Rejected signatures *)

Section Rejection.

Variable Keccak256 : bytes -> bytes.
Variable Ecrecover : bytes -> bytes -> option bytes.

(** [VerifySig] without cache entry for the chain id, which is not zero. *)
Lemma VerifySig_uncached chainID msg calls :
  no_cache_entry chainID msg -> chainID <> 0 ->
  VerifySig Keccak256 Ecrecover chainID msg calls =
    match recoverEthSig Keccak256 Ecrecover
            (big.SetBytes (TxData.R (Data msg))) (big.SetBytes (TxData.S (Data msg)))
            (big.SetBytes (TxData.V (Data msg)) - chainID * 2 - 8)
            (RLPSignBytes Keccak256 msg chainID) calls with
    | (Ok sender, n) =>
        (Ok sender,
         with_from msg (Some (SigCache.mk (ethtypes.NewEIP155Signer chainID) sender)), n)
    | (Err e, n) => (Err e, msg, n)
    | (Panic p, n) => (Panic p, msg, n)
    end.
Proof.
  intros Hf Hc. unfold VerifySig, big.Sign.
  destruct (Z.eqb_spec (Z.sgn chainID) 0) as [E|_];
    [apply Z.sgn_null_iff in E; lia|].
  destruct (from msg) as [c|] eqn:Ec; [|reflexivity].
  unfold ethtypes.Equal. simpl ethtypes.chainId.
  destruct (Z.eqb_spec (ethtypes.chainId (SigCache.signer c)) chainID) as [E|_];
    [exfalso; exact (Hf c Ec E)|].
  reflexivity.
Qed.

(** The rejections that hold: a recovery value whose magnitude needs
    more than 8 bits, and values that [ValidateSignatureValues] refuses,
    are an "invalid signature", found without calling [Ecrecover]. *)
Lemma VerifySig_invalid chainID msg calls :
  no_cache_entry chainID msg -> chainID <> 0 ->
  let V' := big.SetBytes (TxData.V (Data msg)) - chainID * 2 - 8 in
  256 <= Z.abs V' \/
  ethcrypto.ValidateSignatureValues (wrap8 (wrap64 (big.Uint64 V' - 27)))
    (big.SetBytes (TxData.R (Data msg))) (big.SetBytes (TxData.S (Data msg))) true = false ->
  VerifySig Keccak256 Ecrecover chainID msg calls = (Err ErrInvalidSignature, msg, calls).
Proof.
  intros Hf Hc V' H. rewrite VerifySig_uncached by assumption. fold V'.
  unfold recoverEthSig.
  destruct (Z.ltb_spec 8 (big.BitLen V')) as [|Hb]; [reflexivity|].
  destruct H as [H|H].
  - exfalso. unfold big.BitLen in Hb.
    destruct (Z.eqb_spec V' 0) as [E|_]; [rewrite E in H; simpl in H; lia|].
    assert (Hl : Z.log2 (Z.abs V') < 8) by lia.
    apply Z.log2_lt_pow2 in Hl; [change (2 ^ 8) with 256 in Hl|]; lia.
  - rewrite H. reflexivity.
Qed.

(** A signature in high-S form is an "invalid signature". *)
Lemma VerifySig_highS chainID msg calls :
  no_cache_entry chainID msg -> chainID <> 0 ->
  ethcrypto.secp256k1halfN < big.SetBytes (TxData.S (Data msg)) ->
  VerifySig Keccak256 Ecrecover chainID msg calls = (Err ErrInvalidSignature, msg, calls).
Proof.
  intros Hf Hc Hs. apply VerifySig_invalid; try assumption.
  right. apply ValidateSignatureValues_highS. exact Hs.
Qed.

(** C6 (the code does not do it). A message for chain id 10 whose [V]
    field is 1, with [R = S = 1]: [V' = V - 2*10 - 8] is -27, which does
    not fit in a byte; its magnitude has 5 bits, [Uint64] returns the
    magnitude, the recovery id is 0, the values pass the validation, and
    [Ecrecover] is called: the call does not return "invalid signature". *)
Theorem VerifySig_negative_recovery_value
    (nonce : Z) (price : bytes) (gas : Z) (to amount payload : bytes)
    (sz : Z) (h : ethcmn.Hash) (calls : nat) :
  let msg :=
    mkMsg (TxData.mk nonce price gas to amount payload [Byte.x01] [Byte.x01] [Byte.x01])
          sz h None in
  big.SetBytes (TxData.V (Data msg)) - 10 * 2 - 8 = -27 /\
  fst (fst (VerifySig Keccak256 Ecrecover 10 msg calls)) <> Err ErrInvalidSignature /\
  snd (VerifySig Keccak256 Ecrecover 10 msg calls) = S calls.
Proof.
  intros msg. split; [reflexivity|].
  rewrite VerifySig_uncached; [|intros c Hc; discriminate Hc|discriminate].
  unfold recoverEthSig. subst msg. simpl Data. simpl TxData.V. simpl TxData.R. simpl TxData.S.
  change (big.SetBytes [Byte.x01]) with 1.
  change (8 <? big.BitLen (1 - 10 * 2 - 8)) with false. cbv iota.
  change (wrap8 (wrap64 (big.Uint64 (1 - 10 * 2 - 8) - 27))) with 0.
  change (ethcrypto.ValidateSignatureValues 0 1 1 true) with true.
  simpl negb. cbv iota.
  change (right_align 32 (big.Bytes 1)) with (Ok (repeat Byte.x00 31 ++ [Byte.x01])).
  cbv iota beta.
  destruct (Ecrecover _ _) as [[|p0 xy]|]; simpl.
  - split; [discriminate|reflexivity].
  - destruct (negb _); simpl; [split; [discriminate|reflexivity]|].
    destruct (_ <? _)%nat; simpl; split; try discriminate; reflexivity.
  - split; [discriminate|reflexivity].
Qed.

End Rejection.

(** ** Signing and verifying *)

Section SignVerify.

Variable PrivateKey : Type.
Variable validKey : PrivateKey -> Prop.
Variable Keccak256 : bytes -> bytes.
Variable ecdsaSign : bytes -> PrivateKey -> option bytes.
Variable Ecrecover : bytes -> bytes -> option bytes.
Variable FromECDSAPub : PrivateKey -> bytes.

Hypothesis sign_ok : SignContract PrivateKey validKey ecdsaSign Ecrecover FromECDSAPub.


(** What [Sign] stores, in terms of the signature the primitive made. *)
Lemma Sign_spec chainID priv msg :
  validKey priv ->
  exists sig,
    ecdsaSign (RLPSignBytes Keccak256 msg chainID) priv = Some sig /\
    length sig = 65%nat /\
    (sig_V sig = 0 \/ sig_V sig = 1) /\
    ethcrypto.ValidateSignatureValues (sig_V sig) (sig_R sig) (sig_S sig) true = true /\
    Ecrecover (RLPSignBytes Keccak256 msg chainID) sig = Some (FromECDSAPub priv) /\
    Sign PrivateKey Keccak256 ecdsaSign chainID priv msg =
      Ok (with_Data msg
            (TxData.with_VRS (Data msg)
               (big.Bytes (if chainID =? 0 then sig_V sig + 27
                           else sig_V sig + 35 + chainID * 2))
               (big.Bytes (sig_R sig)) (big.Bytes (sig_S sig)))).
Proof.
  intros Hk.
  destruct (sign_ok (RLPSignBytes Keccak256 msg chainID) priv Hk (length_RLPSignBytes _ _ _))
    as (sig & Hs & Hl & Hv & Hr).
  exists sig. pose proof (ValidateSignatureValues_true _ _ _ Hv) as (Hv01 & _ & _).
  repeat split; try assumption.
  unfold Sign. rewrite Hs, Hl. simpl negb. cbv iota.
  fold (sig_V sig) (sig_R sig) (sig_S sig).
  do 4 f_equal.
  unfold big.Sign. destruct (Z.eqb_spec chainID 0) as [->|Hne].
  - simpl Z.sgn. simpl (0 =? 0). cbv iota.
    unfold big.SetBytes. simpl rev. rewrite le_combine_1, byte.unsigned_of_Z.
    unfold byte.wrap, wrap8. rewrite Z.mod_mod by (cbv; discriminate).
    apply Z.mod_small. change (2 ^ 8) with 256. lia.
  - destruct (Z.eqb_spec (Z.sgn chainID) 0) as [E|_]; [apply Z.sgn_null_iff in E; lia|].
    unfold wrap8. rewrite Z.mod_small; [reflexivity|]. change (2 ^ 8) with 256. lia.
Qed.

(** [recoverEthSig] on the values of a valid signature [sig], with a
    recovery value [Vb] whose magnitude has at most 8 bits and that
    yields the recovery id of [sig]: the signature is rebuilt and handed
    to [Ecrecover]. *)
Lemma recoverEthSig_rebuilds sig Vb h calls :
  length sig = 65%nat ->
  ethcrypto.ValidateSignatureValues (sig_V sig) (sig_R sig) (sig_S sig) true = true ->
  big.BitLen Vb <= 8 ->
  wrap8 (wrap64 (big.Uint64 Vb - 27)) = sig_V sig ->
  recoverEthSig Keccak256 Ecrecover (sig_R sig) (sig_S sig) Vb h calls =
    match Ecrecover h sig with
    | None => (Err ErrRecoverFailed, S calls)
    | Some [] => (Err ErrInvalidPublicKey, S calls)
    | Some (p0 :: xy) =>
        if negb (byte.unsigned p0 =? 4) then (Err ErrInvalidPublicKey, S calls)
        else if (length (Keccak256 xy) <? 12)%nat
             then (Panic SliceBoundsOutOfRange, S calls)
             else (Ok (copy_into ethcmn.AddressLength (slice_from 12 (Keccak256 xy))),
                   S calls)
    end.
Proof.
  intros Hl Hv Hb HV. unfold recoverEthSig.
  destruct (Z.ltb_spec 8 (big.BitLen Vb)); [lia|].
  rewrite HV, Hv. simpl negb. cbv iota.
  unfold sig_R, sig_S.
  rewrite !right_align_Bytes_SetBytes
    by (unfold slice_to, slice_from; rewrite ?length_firstn, ?length_skipn; lia).
  unfold sig_V. rewrite byte.of_Z_unsigned, signature_split by assumption.
  reflexivity.
Qed.

Hypothesis pubkey_ok : PubkeyContract PrivateKey validKey FromECDSAPub.
Hypothesis keccak_ok : KeccakContract Keccak256.

Lemma length_address_of_digest xy :
  length (slice_from 12 (Keccak256 xy)) = 20%nat.
Proof. unfold slice_from. rewrite length_skipn, keccak_ok. reflexivity. Qed.

(** A valid signature is recovered to the address of its key. *)
Lemma recoverEthSig_genuine sig Vb h priv calls :
  validKey priv ->
  length sig = 65%nat ->
  ethcrypto.ValidateSignatureValues (sig_V sig) (sig_R sig) (sig_S sig) true = true ->
  Ecrecover h sig = Some (FromECDSAPub priv) ->
  big.BitLen Vb <= 8 ->
  wrap8 (wrap64 (big.Uint64 Vb - 27)) = sig_V sig ->
  recoverEthSig Keccak256 Ecrecover (sig_R sig) (sig_S sig) Vb h calls =
    (Ok (PubkeyToAddress PrivateKey Keccak256 FromECDSAPub priv), S calls).
Proof.
  intros Hk Hl Hv Hr Hb HV.
  rewrite (recoverEthSig_rebuilds sig Vb h calls Hl Hv Hb HV), Hr.
  destruct (pubkey_ok priv Hk) as [xy Hxy].
  unfold PubkeyToAddress. rewrite Hxy. simpl.
  rewrite keccak_ok. simpl.
  unfold ethcmn.BytesToAddress.
  rewrite copy_into_id, setBytes_id by apply length_address_of_digest.
  reflexivity.
Qed.

(** C1. [VerifySig(chainID)] after [Sign(chainID, priv)], for a positive
    chain id, a valid key and a message whose sender cache has no entry
    for this chain id (it is empty in every newly built message): [Sign]
    returns, and [VerifySig] returns the 20-byte address of the public key
    of [priv], after one call of [Ecrecover], and caches it. *)
Theorem VerifySig_after_Sign msg chainID priv calls :
  no_cache_entry chainID msg ->
  0 < chainID ->
  validKey priv ->
  exists signed,
    Sign PrivateKey Keccak256 ecdsaSign chainID priv msg = Ok signed /\
    VerifySig Keccak256 Ecrecover chainID signed calls =
      (Ok (PubkeyToAddress PrivateKey Keccak256 FromECDSAPub priv),
       with_from signed
         (Some (SigCache.mk (ethtypes.NewEIP155Signer chainID)
                  (PubkeyToAddress PrivateKey Keccak256 FromECDSAPub priv))),
       S calls) /\
    length (PubkeyToAddress PrivateKey Keccak256 FromECDSAPub priv) = 20%nat.
Proof.
  intros Hfrom Hc Hk.
  destruct (Sign_spec chainID priv msg Hk) as (sig & Hs & Hl & Hv01 & Hv & Hr & HS).
  destruct (Z.eqb_spec chainID 0) as [|_]; [lia|].
  eexists. split; [exact HS|]. split.
  - rewrite VerifySig_uncached; [|exact Hfrom|lia].
    cbn [TxData.V TxData.R TxData.S TxData.with_VRS Data with_Data].
    pose proof (ValidateSignatureValues_true _ _ _ Hv) as (_ & HR & HSs).
    rewrite !SetBytes_Bytes by lia.
    rewrite (RLPSignBytes_Data Keccak256 msg) by reflexivity.
    rewrite (recoverEthSig_genuine sig _ _ priv calls Hk Hl Hv Hr).
    + reflexivity.
    + replace (sig_V sig + 35 + chainID * 2 - chainID * 2 - 8) with (sig_V sig + 27) by lia.
      destruct Hv01 as [-> | ->]; cbv; discriminate.
    + replace (sig_V sig + 35 + chainID * 2 - chainID * 2 - 8) with (sig_V sig + 27) by lia.
      destruct Hv01 as [-> | ->]; reflexivity.
  - unfold PubkeyToAddress, ethcmn.BytesToAddress. apply length_setBytes.
Qed.

(** [ChainID] after [Sign], for every chain id that is not negative. *)
Lemma ChainID_Sign msg chainID priv :
  validKey priv -> 0 <= chainID ->
  exists signed,
    Sign PrivateKey Keccak256 ecdsaSign chainID priv msg = Ok signed /\
    ChainID signed = chainID.
Proof.
  intros Hk Hc.
  destruct (Sign_spec chainID priv msg Hk) as (sig & _ & _ & Hv01 & _ & _ & HS).
  eexists. split; [exact HS|].
  unfold ChainID. simpl TxData.V.
  destruct (Z.eqb_spec chainID 0) as [->|Hne].
  - rewrite SetBytes_Bytes by lia. destruct Hv01 as [-> | ->]; reflexivity.
  - rewrite SetBytes_Bytes by lia.
    rewrite deriveChainID_protected by lia.
    replace (sig_V sig + 35 + chainID * 2 - 35) with (sig_V sig + chainID * 2) by lia.
    destruct Hv01 as [-> | ->]; Z.div_mod_to_equations; lia.
Qed.

(** C4. [ChainID] after [Sign(chainID, key)] is [chainID] for the chain
    ids 0, 1, 5 and 2^40+7; [deriveChainID] maps 27 and 28 to 0, and a
    [V] from 35 on to [(V - 35) / 2] in integer division. *)
Theorem ChainID_after_Sign msg chainID priv :
  validKey priv ->
  In chainID [0; 1; 5; 2 ^ 40 + 7] ->
  (exists signed,
     Sign PrivateKey Keccak256 ecdsaSign chainID priv msg = Ok signed /\
     ChainID signed = chainID) /\
  deriveChainID 27 = 0 /\ deriveChainID 28 = 0 /\
  (forall V, 35 <= V -> deriveChainID V = (V - 35) / 2).
Proof.
  intros Hk Hin. split; [|split; [reflexivity|split; [reflexivity|]]].
  - apply ChainID_Sign; [assumption|].
    simpl in Hin. assert (0 < 2 ^ 40) by reflexivity. intuition lia.
  - intros V HV. apply deriveChainID_protected. exact HV.
Qed.

End SignVerify.

(** ** The toy primitives satisfy the contracts *)

Lemma Toy_sign_ok :
  SignContract Toy.PrivateKey Toy.validKey Toy.ecdsaSign Toy.Ecrecover Toy.FromECDSAPub.
Proof.
  intros h priv _ _. eexists. split; [reflexivity|].
  destruct priv; repeat split; reflexivity.
Qed.

Lemma Toy_pubkey_ok : PubkeyContract Toy.PrivateKey Toy.validKey Toy.FromECDSAPub.
Proof. intros priv _. eexists. reflexivity. Qed.

Lemma Toy_keccak_ok : KeccakContract Toy.Keccak256.
Proof. intros b. apply length_setBytes. Qed.

Lemma VerifySig_after_Sign_witness :
  no_cache_entry 1 Toy.tx0 /\ 0 < 1 /\ Toy.validKey true /\
  exists signed,
    Sign Toy.PrivateKey Toy.Keccak256 Toy.ecdsaSign 1 true Toy.tx0 = Ok signed /\
    VerifySig Toy.Keccak256 Toy.Ecrecover 1 signed 0 =
      (Ok (PubkeyToAddress Toy.PrivateKey Toy.Keccak256 Toy.FromECDSAPub true),
       with_from signed
         (Some (SigCache.mk (ethtypes.NewEIP155Signer 1)
                  (PubkeyToAddress Toy.PrivateKey Toy.Keccak256 Toy.FromECDSAPub true))),
       1%nat) /\
    length (PubkeyToAddress Toy.PrivateKey Toy.Keccak256 Toy.FromECDSAPub true) = 20%nat.
Proof.
  split; [intros c Hc; discriminate Hc|]. split; [lia|]. split; [exact I|].
  apply (VerifySig_after_Sign Toy.PrivateKey Toy.validKey Toy.Keccak256 Toy.ecdsaSign
           Toy.Ecrecover Toy.FromECDSAPub Toy_sign_ok Toy_pubkey_ok Toy_keccak_ok
           Toy.tx0 1 true 0%nat); [intros c Hc; discriminate Hc | lia | exact I].
Defined.

Lemma ChainID_after_Sign_witness :
  Toy.validKey false /\ In (2 ^ 40 + 7) [0; 1; 5; 2 ^ 40 + 7] /\
  (exists signed,
     Sign Toy.PrivateKey Toy.Keccak256 Toy.ecdsaSign (2 ^ 40 + 7) false Toy.tx0 = Ok signed /\
     ChainID signed = 2 ^ 40 + 7) /\
  deriveChainID 27 = 0 /\ deriveChainID 28 = 0 /\
  (forall V, 35 <= V -> deriveChainID V = (V - 35) / 2).
Proof.
  split; [exact I|]. split; [simpl; tauto|].
  apply (ChainID_after_Sign Toy.PrivateKey Toy.validKey Toy.Keccak256 Toy.ecdsaSign
           Toy.Ecrecover Toy.FromECDSAPub Toy_sign_ok Toy.tx0 (2 ^ 40 + 7) false);
    [exact I | simpl; tauto].
Defined.

Example Toy_tx0_new :
  NewMsgEthereumTx 0 (Some Toy.addr1) (Some 0) 21000 (Some 1) [] = Ok Toy.tx0.
Proof. reflexivity. Qed.

Example Toy_sign_verify :
  exists signed,
    Sign Toy.PrivateKey Toy.Keccak256 Toy.ecdsaSign 1 true Toy.tx0 = Ok signed /\
    TxData.V (Data signed) = [Byte.x25] /\
    fst (fst (VerifySig Toy.Keccak256 Toy.Ecrecover 1 signed 0)) =
      Ok (repeat Byte.x01 20).
Proof. eexists. split; [reflexivity|]. split; vm_compute; reflexivity. Qed.

Lemma Toy_tx0_reachable :
  reachable Toy.PrivateKey Toy.Keccak256 Toy.ecdsaSign Toy.Ecrecover Toy.tx0.
Proof.
  apply (reach_new _ _ _ _ 0 (Some Toy.addr1) (Some 0) 21000 (Some 1) []). reflexivity.
Qed.

Lemma VerifySig_zero_chainID_witness :
  reachable Toy.PrivateKey Toy.Keccak256 Toy.ecdsaSign Toy.Ecrecover Toy.tx0 /\
  VerifySig Toy.Keccak256 Toy.Ecrecover 0 Toy.tx0 0 = (Err ErrChainIDZero, Toy.tx0, 0%nat) /\
  (forall priv signed,
      Sign Toy.PrivateKey Toy.Keccak256 Toy.ecdsaSign 0 priv Toy.tx0 = Ok signed ->
      VerifySig Toy.Keccak256 Toy.Ecrecover 0 signed 0 = (Err ErrChainIDZero, signed, 0%nat)).
Proof.
  split; [exact Toy_tx0_reachable|].
  exact (VerifySig_zero_chainID Toy.PrivateKey Toy.Keccak256 Toy.ecdsaSign Toy.Ecrecover
           Toy.tx0 0%nat Toy_tx0_reachable).
Defined.

Example Toy_signed_Sign :
  Sign Toy.PrivateKey Toy.Keccak256 Toy.ecdsaSign 1 true Toy.tx0 = Ok Toy.signed.
Proof. vm_compute. reflexivity. Qed.

Lemma Toy_signed_VerifySig :
  VerifySig Toy.Keccak256 Toy.Ecrecover 1 Toy.signed 0 =
    (Ok (repeat Byte.x01 20), Toy.verified, 1%nat).
Proof. vm_compute. reflexivity. Qed.

Lemma VerifySig_cache_witness :
  VerifySig Toy.Keccak256 Toy.Ecrecover 1 Toy.signed 0 =
    (Ok (repeat Byte.x01 20), Toy.verified, 1%nat) /\
  VerifySig Toy.Keccak256 Toy.Ecrecover 1 Toy.verified 1 =
    (Ok (repeat Byte.x01 20), Toy.verified, 1%nat) /\
  (forall chainID' calls2,
      chainID' <> 1 ->
      VerifySig Toy.Keccak256 Toy.Ecrecover chainID' Toy.verified calls2 =
        let '(r, m, n) :=
          VerifySig Toy.Keccak256 Toy.Ecrecover chainID' (with_from Toy.verified None) calls2 in
        (r, match r with Ok _ => m | _ => Toy.verified end, n)).
Proof.
  split; [exact Toy_signed_VerifySig|].
  exact (VerifySig_cache Toy.Keccak256 Toy.Ecrecover 1 Toy.signed 0%nat
           (repeat Byte.x01 20) Toy.verified 1%nat Toy_signed_VerifySig).
Defined.

(** After a verification for chain id 1, chain id 2 is recomputed, and
    here refused: the recovery value of the signature is not one of
    chain id 2. *)
Example Toy_other_chainID :
  VerifySig Toy.Keccak256 Toy.Ecrecover 2 Toy.verified 1 =
    (Err ErrInvalidSignature, Toy.verified, 1%nat).
Proof. vm_compute. reflexivity. Qed.

(** ** Chain-id derivation below 35 *)

(** C10. For a [V] below 35 other than 27 and 28, [deriveChainID] returns
    the quotient of the 64-bit wrap-around of [V - 35], a chain id of at
    least [2^63 - 18]; so does [ChainID] on a message whose [V] field
    holds such a value, the empty [V] of an unsigned message included. *)
Theorem deriveChainID_wraps V :
  0 <= V < 35 -> V <> 27 -> V <> 28 ->
  deriveChainID V = (V - 35 + 2 ^ 64) / 2 /\
  2 ^ 63 - 18 <= deriveChainID V < 2 ^ 63 /\
  (forall msg, big.SetBytes (TxData.V (Data msg)) = V ->
               ChainID msg = (V - 35 + 2 ^ 64) / 2).
Proof.
  intros HV H27 H28.
  assert (E : deriveChainID V = (V - 35 + 2 ^ 64) / 2).
  { unfold deriveChainID.
    assert (Hb : big.BitLen V <= 64).
    { apply BitLen_le; [|lia]. split; [lia|]. apply Z.lt_trans with 35; [lia|reflexivity]. }
    destruct (Z.leb_spec (big.BitLen V) 64); [|lia].
    unfold big.Uint64, wrap64. rewrite Z.abs_eq by lia.
    change (2 ^ 64) with 18446744073709551616.
    rewrite (Z.mod_small V) by lia.
    destruct (Z.eqb_spec V 27); [lia|]. destruct (Z.eqb_spec V 28); [lia|]. simpl.
    f_equal.
    rewrite <- (Z.mod_small (V - 35 + 18446744073709551616) 18446744073709551616) by lia.
    rewrite <- (Z.mod_add (V - 35) 1 18446744073709551616) by lia. f_equal. }
  split; [exact E|]. split.
  - rewrite E. change (2 ^ 64) with 18446744073709551616.
    change (2 ^ 63) with 9223372036854775808.
    Z.div_mod_to_equations. lia.
  - intros msg Hm. unfold ChainID. rewrite Hm. exact E.
Qed.

Lemma deriveChainID_wraps_witness :
  0 <= 0 < 35 /\ 0 <> 27 /\ 0 <> 28 /\
  deriveChainID 0 = (0 - 35 + 2 ^ 64) / 2 /\
  2 ^ 63 - 18 <= deriveChainID 0 < 2 ^ 63 /\
  (forall msg, big.SetBytes (TxData.V (Data msg)) = 0 ->
               ChainID msg = (0 - 35 + 2 ^ 64) / 2).
Proof.
  split; [lia|]. split; [lia|]. split; [lia|].
  apply (deriveChainID_wraps 0); lia.
Defined.

Example ChainID_unsigned : ChainID Toy.tx0 = 9223372036854775790.
Proof. reflexivity. Qed.

(** ** The transaction hash *)

Section TransactionHash.

Variable PrivateKey : Type.
Variable Keccak256 : bytes -> bytes.
Variable ecdsaSign : bytes -> PrivateKey -> option bytes.
Variable Ecrecover : bytes -> bytes -> option bytes.

(** [Hash] on a 32-byte [hash] field: the guard [len(msg.hash.Bytes()) == 0]
    is false, nothing is computed, the field is returned. *)
Lemma Hash_returns_field msg :
  length (hash msg) = 32%nat -> Hash Keccak256 msg = (hash msg, msg).
Proof.
  intros H. unfold Hash, ethcmn.Hash_Bytes. rewrite H. reflexivity.
Qed.

(** On every message a caller can hold, [Hash] returns the zero hash. *)
Lemma Hash_reachable msg :
  reachable PrivateKey Keccak256 ecdsaSign Ecrecover msg ->
  Hash Keccak256 msg = (ethcmn.Hash_zero, msg).
Proof.
  intros Hr. pose proof (reachable_hash _ _ _ _ msg Hr) as Hz.
  rewrite Hash_returns_field by (rewrite Hz; reflexivity).
  rewrite Hz. reflexivity.
Qed.

(** C2 (the code does not do it). [Hash] on a message with whatever
    data, whose [hash] field has the zero value it has in a new message:
    the field has 32 bytes, so the first call returns 32 zero bytes, not
    the hash of the encoding, and stores nothing, and the second call
    does the same; [Keccak256] is not applied. *)
Theorem Hash_never_computed (d : TxData.t) (sz : Z) (c : option SigCache.t) :
  let msg := mkMsg d sz ethcmn.Hash_zero c in
  length (ethcmn.Hash_Bytes (hash msg)) = 32%nat /\
  Hash Keccak256 msg = (repeat Byte.x00 32, msg) /\
  Hash Keccak256 (snd (Hash Keccak256 msg)) = (repeat Byte.x00 32, msg).
Proof.
  intros msg. split; [reflexivity|].
  assert (H : Hash Keccak256 msg = (repeat Byte.x00 32, msg))
    by (apply Hash_returns_field; reflexivity).
  split; [exact H|]. rewrite H. exact H.
Qed.

End TransactionHash.

(** With the toy digest, the hash of the encoding of [tx0] is not what
    [Hash] returns. *)
Example Hash_tx0_differs :
  fst (Hash Toy.Keccak256 Toy.tx0) <> rlpHash Toy.Keccak256 (TxData.to_value (Data Toy.tx0)).
Proof. vm_compute. discriminate. Qed.

(** ** Contract creation *)

(** C3 (the code does not do it). [NewMsgEthereumTxContract] passes a nil
    recipient to [newMsgEthereumTx], which calls [to.Bytes()] on it: the
    constructor panics for every argument, and so does [NewMsgEthereumTx]
    with a nil recipient. *)
Theorem NewMsgEthereumTxContract_panics nonce amount gasLimit gasPrice payload :
  NewMsgEthereumTxContract nonce amount gasLimit gasPrice payload =
    Panic NilPointerDereference /\
  NewMsgEthereumTx nonce None amount gasLimit gasPrice payload =
    Panic NilPointerDereference.
Proof. split; reflexivity. Qed.

(** With the toy primitives the call even returns an address. *)
Example Toy_negative_recovery_value :
  fst (fst (VerifySig Toy.Keccak256 Toy.Ecrecover 10
              (with_Data Toy.tx0
                 (TxData.with_VRS (Data Toy.tx0) [Byte.x01] [Byte.x01] [Byte.x01])) 0)) =
    Ok (repeat Byte.x01 20).
Proof. vm_compute. reflexivity. Qed.

Section SecondV.

Variable PrivateKey : Type.
Variable validKey : PrivateKey -> Prop.
Variable Keccak256 : bytes -> bytes.
Variable ecdsaSign : bytes -> PrivateKey -> option bytes.
Variable Ecrecover : bytes -> bytes -> option bytes.
Variable FromECDSAPub : PrivateKey -> bytes.

Hypothesis sign_ok : SignContract PrivateKey validKey ecdsaSign Ecrecover FromECDSAPub.
Hypothesis pubkey_ok : PubkeyContract PrivateKey validKey FromECDSAPub.
Hypothesis keccak_ok : KeccakContract Keccak256.

(** What the missed case does to a signed message: for a chain id from
    10 on, the [V] that [Sign] stored can be replaced by
    [2*chainID - 19 - recid], which makes [V'] the negative of
    [27 + recid], and [VerifySig] still returns the signer. *)
Lemma VerifySig_second_V msg chainID priv calls :
  no_cache_entry chainID msg -> 10 <= chainID -> validKey priv ->
  exists signed recid,
    Sign PrivateKey Keccak256 ecdsaSign chainID priv msg = Ok signed /\
    (recid = 0 \/ recid = 1) /\
    TxData.V (Data signed) = big.Bytes (recid + 35 + chainID * 2) /\
    let V2 := chainID * 2 - 19 - recid in
    let forged :=
      with_Data signed
        (TxData.with_VRS (Data signed) (big.Bytes V2)
           (TxData.R (Data signed)) (TxData.S (Data signed))) in
    0 <= V2 < recid + 35 + chainID * 2 /\
    V2 - chainID * 2 - 8 = - (27 + recid) /\
    fst (fst (VerifySig Keccak256 Ecrecover chainID forged calls)) =
      Ok (PubkeyToAddress PrivateKey Keccak256 FromECDSAPub priv).
Proof.
  intros Hfrom Hc Hk.
  destruct (Sign_spec PrivateKey validKey Keccak256 ecdsaSign Ecrecover FromECDSAPub
              sign_ok chainID priv msg Hk) as (sig & Hs & Hl & Hv01 & Hv & Hr & HS).
  destruct (Z.eqb_spec chainID 0) as [|_]; [lia|].
  eexists. exists (sig_V sig). split; [exact HS|]. split; [exact Hv01|].
  split; [reflexivity|]. cbv zeta. split; [lia|]. split; [lia|].
  rewrite VerifySig_uncached; [|exact Hfrom|lia].
  cbn [TxData.V TxData.R TxData.S TxData.with_VRS Data with_Data].
  pose proof (ValidateSignatureValues_true _ _ _ Hv) as (_ & HR & HSs).
  rewrite !SetBytes_Bytes by lia.
  rewrite (RLPSignBytes_Data Keccak256 msg) by reflexivity.
  rewrite (recoverEthSig_genuine PrivateKey validKey Keccak256 Ecrecover FromECDSAPub
             pubkey_ok keccak_ok sig _ _ priv calls Hk Hl Hv Hr).
  - reflexivity.
  - replace (chainID * 2 - 19 - sig_V sig - chainID * 2 - 8) with (- (27 + sig_V sig)) by lia.
    destruct Hv01 as [-> | ->]; cbv; discriminate.
  - replace (chainID * 2 - 19 - sig_V sig - chainID * 2 - 8) with (- (27 + sig_V sig)) by lia.
    destruct Hv01 as [-> | ->]; reflexivity.
Qed.

End SecondV.

(** ** The signing hash *)

Lemma byteLen_lt x k : 0 <= x -> 2 ^ (8 * Z.of_nat k) <= x -> (k < big.byteLen x)%nat.
Proof.
  intros Hx Hk. pose proof (byteLen_spec x Hx) as Hs.
  destruct (Nat.lt_ge_cases k (big.byteLen x)) as [|Hle]; [assumption|].
  assert (2 ^ (Z.of_nat (big.byteLen x) * 8) <= 2 ^ (8 * Z.of_nat k))
    by (apply Z.pow_le_mono_r; lia).
  lia.
Qed.

Lemma Bytes_zero : big.Bytes 0 = [].
Proof. reflexivity. Qed.

(** The bytes of an integer that fits in one byte. *)
Lemma Bytes_byte x : 0 < x < 256 -> big.Bytes x = [byte.of_Z x].
Proof.
  intros Hx.
  assert (H1 : (big.byteLen x <= 1)%nat) by (apply byteLen_le; simpl; lia).
  assert (H0 : (0 < big.byteLen x)%nat) by (apply byteLen_lt; simpl; lia).
  unfold big.Bytes. replace (big.byteLen x) with 1%nat by lia.
  rewrite Z.abs_eq by lia. reflexivity.
Qed.

(** [writeUint] writes the string of the minimal bytes. *)
Lemma writeUint_encodeString n :
  0 <= n < 2 ^ 64 -> rlp.writeUint n = rlp.encodeString (big.Bytes n).
Proof.
  intros Hn. unfold rlp.writeUint.
  destruct (Z.eqb_spec n 0) as [->|Hn0]; [reflexivity|].
  destruct (Z.ltb_spec n 128) as [Hs|Hs].
  - rewrite Bytes_byte by lia. unfold rlp.encodeString.
    rewrite byte.unsigned_of_Z. unfold byte.wrap. rewrite Z.mod_small by (simpl; lia).
    destruct (Z.leb_spec n 127); [reflexivity|lia].
  - destruct (Z.lt_ge_cases n 256) as [Hb|Hb].
    + rewrite Bytes_byte by lia. unfold rlp.encodeString.
      rewrite byte.unsigned_of_Z. unfold byte.wrap. rewrite Z.mod_small by (simpl; lia).
      destruct (Z.leb_spec n 127); [lia|reflexivity].
    + assert (H2 : (1 < big.byteLen n)%nat) by (apply byteLen_lt; simpl; lia).
      assert (H8 : (big.byteLen n <= 8)%nat) by (apply byteLen_le; simpl; lia).
      rewrite <- length_Bytes in H2, H8.
      destruct (big.Bytes n) as [|a [|b t]] eqn:E; simpl in H2; try lia.
      unfold rlp.encodeString, rlp.puthead.
      destruct (Z.ltb_spec (blen (a :: b :: t)) 56) as [|Hl]; [reflexivity|].
      unfold blen in Hl. lia.
Qed.

(** [writeBigInt] writes the string of the minimal bytes. *)
Lemma writeBigInt_encodeString z :
  0 <= z -> rlp.writeBigInt z = Ok (rlp.encodeString (big.Bytes z)).
Proof.
  intros Hz. unfold rlp.writeBigInt.
  destruct (Z.ltb_spec z 0); [lia|].
  destruct (Z.eqb_spec z 0) as [->|]; reflexivity.
Qed.

(** C7. For a chain id that is not negative, [RLPSignBytes(chainID)] is
    the 256-bit hash of the encoding of the tuple [(nonce, gasPrice,
    gasLimit, recipient, amount, payload, chainID, 0, 0)], with the
    recipient as a 20-byte address; it reads these six fields only, so it
    is the same on every message that agrees on them, whatever the
    signature fields and the caches hold. *)
Theorem RLPSignBytes_signing_payload (Keccak256 : bytes -> bytes) msg chainID :
  0 <= chainID ->
  0 <= TxData.AccountNonce (Data msg) < 2 ^ 64 ->
  0 <= TxData.GasLimit (Data msg) < 2 ^ 64 ->
  RLPSignBytes Keccak256 msg chainID =
    ethcmn.setBytes 32
      (Keccak256
         (Spec.signing_payload
            (TxData.AccountNonce (Data msg))
            (big.SetBytes (TxData.Price (Data msg)))
            (TxData.GasLimit (Data msg))
            (ethcmn.BytesToAddress (TxData.Recipient (Data msg)))
            (big.SetBytes (TxData.Amount (Data msg)))
            (TxData.Payload (Data msg))
            chainID)) /\
  (forall msg',
      TxData.AccountNonce (Data msg') = TxData.AccountNonce (Data msg) ->
      TxData.Price (Data msg') = TxData.Price (Data msg) ->
      TxData.GasLimit (Data msg') = TxData.GasLimit (Data msg) ->
      TxData.Recipient (Data msg') = TxData.Recipient (Data msg) ->
      TxData.Amount (Data msg') = TxData.Amount (Data msg) ->
      TxData.Payload (Data msg') = TxData.Payload (Data msg) ->
      RLPSignBytes Keccak256 msg' chainID = RLPSignBytes Keccak256 msg chainID).
Proof.
  intros Hc Hn Hg. split; [|intros; apply RLPSignBytes_Data; assumption].
  unfold RLPSignBytes, rlpHash, rlp.encode.
  rewrite !writeBigInt_encodeString by (apply SetBytes_nonneg || assumption).
  rewrite !writeUint_encodeString by (assumption || (split; [lia|reflexivity])).
  cbn [bind]. unfold Spec.signing_payload, Spec.encode_tuple.
  cbn [map concat Spec.encode_field]. reflexivity.
Qed.

Lemma RLPSignBytes_signing_payload_witness :
  0 <= 1 /\
  0 <= TxData.AccountNonce (Data Toy.tx0) < 2 ^ 64 /\
  0 <= TxData.GasLimit (Data Toy.tx0) < 2 ^ 64 /\
  RLPSignBytes Toy.Keccak256 Toy.tx0 1 =
    ethcmn.setBytes 32
      (Toy.Keccak256
         (Spec.signing_payload 0 (big.SetBytes [Byte.x01]) 21000
            (ethcmn.BytesToAddress Toy.addr1) (big.SetBytes []) [] 1)) /\
  (forall msg',
      TxData.AccountNonce (Data msg') = TxData.AccountNonce (Data Toy.tx0) ->
      TxData.Price (Data msg') = TxData.Price (Data Toy.tx0) ->
      TxData.GasLimit (Data msg') = TxData.GasLimit (Data Toy.tx0) ->
      TxData.Recipient (Data msg') = TxData.Recipient (Data Toy.tx0) ->
      TxData.Amount (Data msg') = TxData.Amount (Data Toy.tx0) ->
      TxData.Payload (Data msg') = TxData.Payload (Data Toy.tx0) ->
      RLPSignBytes Toy.Keccak256 msg' 1 = RLPSignBytes Toy.Keccak256 Toy.tx0 1).
Proof.
  split; [lia|]. split; [simpl; lia|]. split; [simpl; lia|].
  apply (RLPSignBytes_signing_payload Toy.Keccak256 Toy.tx0 1); simpl; lia.
Defined.

(** The payload of [tx0] for chain id 1, byte for byte. *)
Example signing_payload_tx0 :
  map byte.unsigned
    (Spec.signing_payload 0 1 21000 (ethcmn.BytesToAddress Toy.addr1) 0 [] 1) =
  [0xdf; 0x80; 0x01; 0x82; 0x52; 0x08; 0x94;
   0x11; 0x11; 0x11; 0x11; 0x11; 0x11; 0x11; 0x11; 0x11; 0x11;
   0x11; 0x11; 0x11; 0x11; 0x11; 0x11; 0x11; 0x11; 0x11; 0x11;
   0x80; 0x80; 0x01; 0x80; 0x80].
Proof. vm_compute. reflexivity. Qed.

(** ** The wire encoding *)

Lemma SetBytes_single b : big.SetBytes [b] = byte.unsigned b.
Proof. unfold big.SetBytes. simpl rev. apply le_combine_1. Qed.

(** The first of the bytes of a positive integer is not zero. *)
Lemma Bytes_head x :
  0 < x -> exists b t, big.Bytes x = b :: t /\ byte.unsigned b <> 0.
Proof.
  intros Hx.
  assert (Hk : (0 < big.byteLen x)%nat) by (apply byteLen_lt; simpl; lia).
  pose proof (length_Bytes x) as Hl. pose proof (SetBytes_Bytes x ltac:(lia)) as Hs.
  destruct (big.Bytes x) as [|b t]; [simpl in Hl; lia|].
  exists b, t. split; [reflexivity|]. intros Hb.
  unfold big.SetBytes in Hs. simpl rev in Hs.
  rewrite le_combine_app, le_combine_1, Hb, Z.shiftl_0_l, Z.lor_0_r in Hs.
  pose proof (le_combine_bound (rev t)) as Hbd. rewrite length_rev, Hs in Hbd.
  assert (big.byteLen x <= length t)%nat by (apply byteLen_le; lia).
  simpl in Hl. lia.
Qed.

Lemma length_Bytes_uint64 n :
  0 < n < 2 ^ 64 -> 1 <= blen (big.Bytes n) <= 8.
Proof.
  intros Hn. unfold blen. rewrite length_Bytes.
  assert (0 < big.byteLen n)%nat by (apply byteLen_lt; simpl; lia).
  assert (big.byteLen n <= 8)%nat by (apply byteLen_le; simpl; lia). lia.
Qed.

(** [readUint] reads back the bytes of an integer. *)
Lemma readUint_Bytes inList n rest :
  0 < n < 2 ^ 64 ->
  rlp.readUint inList (blen (big.Bytes n)) (big.Bytes n ++ rest) = Ok (n, rest).
Proof.
  intros Hn. pose proof (length_Bytes_uint64 n Hn) as Hl.
  pose proof (SetBytes_Bytes n ltac:(lia)) as Hs.
  destruct (Bytes_head n ltac:(lia)) as (b & t & E & Hb).
  unfold rlp.readUint. rewrite E in *.
  destruct (Z.eqb_spec (blen (b :: t)) 0); [lia|].
  destruct (Z.eqb_spec (blen (b :: t)) 1) as [H1|H1].
  - destruct t; [|unfold blen in H1; simpl in H1; lia].
    simpl. rewrite SetBytes_single in Hs. rewrite Hs. reflexivity.
  - destruct (Z.ltb_spec (blen ((b :: t) ++ rest)) (blen (b :: t))) as [Hlt|_].
    + unfold blen in Hlt. rewrite length_app in Hlt. lia.
    + unfold blen. rewrite Nat2Z.id.
      rewrite firstn_app, Nat.sub_diag, firstn_all, firstn_O, app_nil_r.
      destruct (Z.eqb_spec (byte.unsigned b) 0); [contradiction|].
      rewrite skipn_app, Nat.sub_diag, skipn_all, skipn_O. simpl app. rewrite Hs. reflexivity.
Qed.

(** [Kind] reads back the size tag of a string or a list when the value
    is there. *)
Lemma Kind_puthead inList (list : bool) size rest :
  0 <= size < 2 ^ 64 -> size <= blen rest ->
  rlp.Kind inList (rlp.puthead (if list then 0xC0 else 0x80) size ++ rest) =
    Ok (if list then rlp.KList else rlp.KString, size, rest).
Proof.
  intros Hs Hr. unfold rlp.Kind, rlp.puthead.
  destruct (Z.ltb_spec size 56) as [Hsmall|Hlarge].
  - simpl app. unfold rlp.readKind. rewrite byte.unsigned_of_Z. unfold byte.wrap.
    rewrite Z.mod_small by (change (2 ^ 8) with 256; destruct list; lia).
    destruct list.
    + destruct (Z.ltb_spec (0xC0 + size) 0x80); [lia|].
      destruct (Z.ltb_spec (0xC0 + size) 0xB8); [lia|].
      destruct (Z.ltb_spec (0xC0 + size) 0xC0); [lia|].
      destruct (Z.ltb_spec (0xC0 + size) 0xF8); [|lia].
      cbn [bind]. replace (0xC0 + size - 0xC0) with size by lia.
      destruct (Z.ltb_spec (blen rest) size); [lia|reflexivity].
    + destruct (Z.ltb_spec (0x80 + size) 0x80); [lia|].
      destruct (Z.ltb_spec (0x80 + size) 0xB8); [|lia].
      cbn [bind]. replace (0x80 + size - 0x80) with size by lia.
      destruct (Z.ltb_spec (blen rest) size); [lia|reflexivity].
  - pose proof (length_Bytes_uint64 size ltac:(lia)) as Hl.
    pose proof (readUint_Bytes inList size rest ltac:(lia)) as Hu.
    cbn [app]. unfold rlp.readKind. rewrite byte.unsigned_of_Z. unfold byte.wrap.
    rewrite Z.mod_small by (change (2 ^ 8) with 256; destruct list; lia).
    destruct list.
    + destruct (Z.ltb_spec (0xC0 + 55 + blen (big.Bytes size)) 0x80); [lia|].
      destruct (Z.ltb_spec (0xC0 + 55 + blen (big.Bytes size)) 0xB8); [lia|].
      destruct (Z.ltb_spec (0xC0 + 55 + blen (big.Bytes size)) 0xC0); [lia|].
      destruct (Z.ltb_spec (0xC0 + 55 + blen (big.Bytes size)) 0xF8); [lia|].
      replace (0xC0 + 55 + blen (big.Bytes size) - 0xF7) with (blen (big.Bytes size)) by lia.
      rewrite Hu. cbn [bind].
      destruct (Z.ltb_spec size 56); [lia|]. cbn [bind].
      destruct (Z.ltb_spec (blen rest) size); [lia|reflexivity].
    + destruct (Z.ltb_spec (0x80 + 55 + blen (big.Bytes size)) 0x80); [lia|].
      destruct (Z.ltb_spec (0x80 + 55 + blen (big.Bytes size)) 0xB8); [lia|].
      destruct (Z.ltb_spec (0x80 + 55 + blen (big.Bytes size)) 0xC0); [|lia].
      replace (0x80 + 55 + blen (big.Bytes size) - 0xB7) with (blen (big.Bytes size)) by lia.
      rewrite Hu. cbn [bind].
      destruct (Z.ltb_spec size 56); [lia|]. cbn [bind].
      destruct (Z.ltb_spec (blen rest) size); [lia|reflexivity].
Qed.

Lemma firstn_blen_app (b rest : bytes) : firstn (Z.to_nat (blen b)) (b ++ rest) = b.
Proof.
  unfold blen. rewrite Nat2Z.id, firstn_app, Nat.sub_diag, firstn_all, firstn_O.
  apply app_nil_r.
Qed.

Lemma skipn_blen_app (b rest : bytes) : skipn (Z.to_nat (blen b)) (b ++ rest) = rest.
Proof.
  unfold blen. rewrite Nat2Z.id, skipn_app, Nat.sub_diag, skipn_all, skipn_O.
  reflexivity.
Qed.

Lemma blen_app (a b : bytes) : blen (a ++ b) = blen a + blen b.
Proof. unfold blen. rewrite length_app. lia. Qed.

Lemma blen_nonneg (b : bytes) : 0 <= blen b.
Proof. unfold blen. lia. Qed.

(** [Bytes] reads back a byte slice. *)
Lemma Bytes_encodeString inList b rest :
  blen b < 2 ^ 64 ->
  rlp.Bytes inList (rlp.encodeString b ++ rest) = Ok (b, rest).
Proof.
  intros Hb. pose proof (blen_nonneg b) as H0.
  assert (Hgen : rlp.Bytes inList (rlp.puthead 0x80 (blen b) ++ b ++ rest) =
                 match b with
                 | [x] => if byte.unsigned x <? 128 then Err ErrCanonSize else Ok (b, rest)
                 | _ => Ok (b, rest)
                 end).
  { unfold rlp.Bytes.
    rewrite (Kind_puthead inList false) by (rewrite ?blen_app; pose proof (blen_nonneg rest); lia).
    cbn [bind]. rewrite firstn_blen_app, skipn_blen_app. reflexivity. }
  unfold rlp.encodeString.
  destruct b as [|x [|y t]].
  - rewrite <- app_assoc, Hgen. reflexivity.
  - destruct (Z.leb_spec (byte.unsigned x) 0x7F) as [Hx|Hx].
    + unfold rlp.Bytes, rlp.Kind, rlp.readKind. cbn [app].
      destruct (Z.ltb_spec (byte.unsigned x) 0x80); [|lia]. cbn [bind].
      destruct (Z.ltb_spec (blen rest) 0); [pose proof (blen_nonneg rest); lia|].
      reflexivity.
    + rewrite <- app_assoc. change (blen [x]) with 1 in Hgen. rewrite Hgen.
      destruct (Z.ltb_spec (byte.unsigned x) 128); [lia|reflexivity].
  - rewrite <- app_assoc. rewrite Hgen. reflexivity.
Qed.

(** [Uint64] reads back an unsigned integer. *)
Lemma Uint64_writeUint inList n rest :
  0 <= n < 2 ^ 64 ->
  rlp.Uint64 inList (rlp.writeUint n ++ rest) = Ok (n, rest).
Proof.
  intros Hn. pose proof (blen_nonneg rest) as Hr. unfold rlp.writeUint.
  destruct (Z.eqb_spec n 0) as [->|Hn0].
  - unfold rlp.Uint64.
    change [byte.of_Z 0x80] with (rlp.puthead 0x80 0).
    rewrite (Kind_puthead inList false 0 rest) by lia.
    reflexivity.
  - destruct (Z.ltb_spec n 128) as [Hs|Hs].
    + unfold rlp.Uint64, rlp.Kind, rlp.readKind. cbn [app].
      rewrite byte.unsigned_of_Z. unfold byte.wrap.
      rewrite Z.mod_small by (change (2 ^ 8) with 256; lia).
      destruct (Z.ltb_spec n 0x80); [|lia]. cbn [bind].
      destruct (Z.ltb_spec (blen rest) 0); [lia|]. cbn [bind].
      rewrite byte.unsigned_of_Z. unfold byte.wrap.
      rewrite Z.mod_small by (change (2 ^ 8) with 256; lia).
      destruct (Z.eqb_spec n 0); [lia|reflexivity].
    + pose proof (length_Bytes_uint64 n ltac:(lia)) as Hl.
      unfold rlp.Uint64.
      pose proof (Kind_puthead inList false (blen (big.Bytes n)) (big.Bytes n ++ rest)) as HK.
      unfold rlp.puthead in HK.
      destruct (Z.ltb_spec (blen (big.Bytes n)) 56); [|lia].
      cbn [app] in *. rewrite HK by (rewrite ?blen_app; lia). cbn [bind].
      destruct (Z.ltb_spec 8 (blen (big.Bytes n))); [lia|].
      rewrite readUint_Bytes by lia.
      destruct (Z.ltb_spec n 128); [lia|]. rewrite andb_false_r. reflexivity.
Qed.

Lemma encodeString_nonempty b : rlp.encodeString b <> [].
Proof.
  unfold rlp.encodeString, rlp.puthead.
  destruct b as [|x [|y t]]; repeat break_match_goal; discriminate.
Qed.

Lemma writeUint_nonempty n : rlp.writeUint n <> [].
Proof. unfold rlp.writeUint. repeat break_match_goal; discriminate. Qed.

Lemma field_Bytes b more :
  blen b < 2 ^ 64 ->
  rlp.field rlp.Bytes (rlp.encodeString b ++ more) = Ok (b, more).
Proof.
  intros Hb. unfold rlp.field.
  destruct (rlp.encodeString b ++ more) eqn:E.
  - apply app_eq_nil in E as [E _]. exfalso. exact (encodeString_nonempty b E).
  - rewrite <- E. apply Bytes_encodeString. exact Hb.
Qed.

Lemma field_Uint64 n more :
  0 <= n < 2 ^ 64 ->
  rlp.field rlp.Uint64 (rlp.writeUint n ++ more) = Ok (n, more).
Proof.
  intros Hn. unfold rlp.field.
  destruct (rlp.writeUint n ++ more) eqn:E.
  - apply app_eq_nil in E as [E _]. exfalso. exact (writeUint_nonempty n E).
  - rewrite <- E. apply Uint64_writeUint. exact Hn.
Qed.

Lemma blen_encodeString b : blen b <= blen (rlp.encodeString b).
Proof.
  unfold rlp.encodeString.
  destruct b as [|x [|y t]]; repeat break_match_goal;
    rewrite ?blen_app; unfold blen; simpl length; try lia;
    match goal with |- context [rlp.puthead ?a ?b] =>
      pose proof (Nat2Z.is_nonneg (length (rlp.puthead a b))) end; lia.
Qed.

Lemma EncodeRLP_content msg :
  EncodeRLP msg =
    Ok (rlp.puthead 0xC0 (blen (wire_content (Data msg))) ++ wire_content (Data msg)).
Proof. reflexivity. Qed.

Lemma decode_wire_content d rest :
  0 <= TxData.AccountNonce d < 2 ^ 64 ->
  0 <= TxData.GasLimit d < 2 ^ 64 ->
  blen (wire_content d) < 2 ^ 64 ->
  TxData.decode (rlp.puthead 0xC0 (blen (wire_content d)) ++ wire_content d ++ rest) =
    Ok (d, rest).
Proof.
  intros Hn Hg Hlen. unfold TxData.decode, rlp.List.
  rewrite (Kind_puthead false true)
    by (rewrite ?blen_app; pose proof (blen_nonneg (wire_content d));
        pose proof (blen_nonneg rest); lia).
  cbn [bind]. rewrite firstn_blen_app, skipn_blen_app.
  unfold wire_content in *. rewrite !blen_app in Hlen.
  pose proof (blen_encodeString (TxData.Price d)).
  pose proof (blen_encodeString (TxData.Recipient d)).
  pose proof (blen_encodeString (TxData.Amount d)).
  pose proof (blen_encodeString (TxData.Payload d)).
  pose proof (blen_encodeString (TxData.V d)).
  pose proof (blen_encodeString (TxData.R d)).
  pose proof (blen_encodeString (TxData.S d)).
  pose proof (blen_nonneg (rlp.writeUint (TxData.AccountNonce d))).
  pose proof (blen_nonneg (rlp.writeUint (TxData.GasLimit d))).
  pose proof (blen_nonneg (rlp.encodeString (TxData.Price d))).
  pose proof (blen_nonneg (rlp.encodeString (TxData.Recipient d))).
  pose proof (blen_nonneg (rlp.encodeString (TxData.Amount d))).
  pose proof (blen_nonneg (rlp.encodeString (TxData.Payload d))).
  pose proof (blen_nonneg (rlp.encodeString (TxData.V d))).
  pose proof (blen_nonneg (rlp.encodeString (TxData.R d))).
  pose proof (blen_nonneg (rlp.encodeString (TxData.S d))).
  change (blen []) with 0 in Hlen.
  rewrite field_Uint64 by assumption. cbn [bind].
  rewrite field_Bytes by lia. cbn [bind].
  rewrite field_Uint64 by assumption. cbn [bind].
  rewrite field_Bytes by lia. cbn [bind].
  rewrite field_Bytes by lia. cbn [bind].
  rewrite field_Bytes by lia. cbn [bind].
  rewrite field_Bytes by lia. cbn [bind].
  rewrite field_Bytes by lia. cbn [bind].
  rewrite field_Bytes by lia. cbn [bind].
  destruct d; reflexivity.
Qed.

Lemma blen_puthead_headsize tag size :
  blen (rlp.puthead tag size) = rlp.headsize size.
Proof.
  unfold rlp.puthead, rlp.headsize. destruct (size <? 56); [reflexivity|].
  unfold blen. simpl length. lia.
Qed.

(** A string that starts with a zero byte is not decoded as an integer. *)
Lemma Uint64_leading_zero inList t rest :
  blen (Byte.x00 :: t) < 2 ^ 64 ->
  rlp.Uint64 inList (rlp.encodeString (Byte.x00 :: t) ++ rest) = Err ErrCanonInt \/
  rlp.Uint64 inList (rlp.encodeString (Byte.x00 :: t) ++ rest) = Err ErrUintOverflow.
Proof.
  intros Hb. pose proof (blen_nonneg rest) as Hr. destruct t as [|y t].
  - left. unfold rlp.Uint64, rlp.Kind. cbn.
    destruct (Z.ltb_spec (blen rest) 0); [lia|reflexivity].
  - unfold rlp.encodeString. rewrite <- app_assoc. unfold rlp.Uint64.
    rewrite (Kind_puthead inList false)
      by (rewrite ?blen_app; pose proof (blen_nonneg (Byte.x00 :: y :: t)); lia).
    cbn [bind].
    destruct (Z.ltb_spec 8 (blen (Byte.x00 :: y :: t))); [right; reflexivity|left].
    unfold rlp.readUint.
    assert (2 <= blen (Byte.x00 :: y :: t)) by (unfold blen; simpl length; lia).
    destruct (Z.eqb_spec (blen (Byte.x00 :: y :: t)) 0); [lia|].
    destruct (Z.eqb_spec (blen (Byte.x00 :: y :: t)) 1); [lia|].
    destruct (Z.ltb_spec (blen ((Byte.x00 :: y :: t) ++ rest)) (blen (Byte.x00 :: y :: t)));
      [rewrite blen_app in *; lia|].
    rewrite firstn_blen_app. reflexivity.
Qed.

Lemma DecodeRLP_list fresh c rest :
  blen c < 2 ^ 64 ->
  DecodeRLP fresh (rlp.puthead 0xC0 (blen c) ++ c ++ rest) =
    '(d, s') <- TxData.decode (rlp.puthead 0xC0 (blen c) ++ c ++ rest) ;;
    Ok (mkMsg d (rlp.ListSize (blen c)) (hash fresh) (from fresh), s').
Proof.
  intros Hc. unfold DecodeRLP.
  rewrite (Kind_puthead false true)
    by (rewrite ?blen_app; pose proof (blen_nonneg c); pose proof (blen_nonneg rest); lia).
  reflexivity.
Qed.

Lemma decode_list c rest :
  blen c < 2 ^ 64 ->
  rlp.List (rlp.puthead 0xC0 (blen c) ++ c ++ rest) = Ok (c, rest).
Proof.
  intros Hc. unfold rlp.List.
  rewrite (Kind_puthead false true)
    by (rewrite ?blen_app; pose proof (blen_nonneg c); pose proof (blen_nonneg rest); lia).
  cbn [bind]. rewrite firstn_blen_app, skipn_blen_app. reflexivity.
Qed.

(** C8, as the code has it. [DecodeRLP] reads back what [EncodeRLP] wrote:
    the data of the message, with the length of the encoding as size, and
    the input after the encoding left in the stream.  It refuses a nonce
    or a gas limit, the two integer fields, that is a string with a
    leading zero byte.  (The price, the amount and [V], [R], [S] are byte
    slices, which [DecodeRLP] takes as they come.) *)
Theorem DecodeRLP_EncodeRLP msg :
  0 <= TxData.AccountNonce (Data msg) < 2 ^ 64 ->
  0 <= TxData.GasLimit (Data msg) < 2 ^ 64 ->
  exists enc,
    EncodeRLP msg = Ok enc /\
    (blen enc < 2 ^ 64 ->
     forall fresh rest,
       DecodeRLP fresh (enc ++ rest) =
         Ok (mkMsg (Data msg) (blen enc) (hash fresh) (from fresh), rest)) /\
    (forall fresh t tail rest,
        let c := rlp.encodeString (Byte.x00 :: t) ++ tail in
        let input := rlp.puthead 0xC0 (blen c) ++ c ++ rest in
        blen c < 2 ^ 64 ->
        DecodeRLP fresh input = Err ErrCanonInt \/
        DecodeRLP fresh input = Err ErrUintOverflow) /\
    (forall fresh t tail rest,
        let c := rlp.writeUint (TxData.AccountNonce (Data msg)) ++
                 rlp.encodeString (TxData.Price (Data msg)) ++
                 rlp.encodeString (Byte.x00 :: t) ++ tail in
        let input := rlp.puthead 0xC0 (blen c) ++ c ++ rest in
        blen c < 2 ^ 64 ->
        DecodeRLP fresh input = Err ErrCanonInt \/
        DecodeRLP fresh input = Err ErrUintOverflow).
Proof.
  intros Hn Hg. eexists. split; [apply EncodeRLP_content|]. split; [|split].
  - intros Hlen fresh rest.
    rewrite blen_app, blen_puthead_headsize in Hlen.
    pose proof (blen_nonneg (wire_content (Data msg))) as Hc.
    assert (Hh : 1 <= rlp.headsize (blen (wire_content (Data msg)))).
    { unfold rlp.headsize. destruct (_ <? 56); [lia|].
      pose proof (blen_nonneg (big.Bytes (blen (wire_content (Data msg))))). lia. }
    rewrite <- app_assoc, DecodeRLP_list by lia.
    rewrite decode_wire_content by (assumption || lia). cbn [bind].
    rewrite blen_app, blen_puthead_headsize.
    unfold rlp.ListSize, wrap64. rewrite Z.mod_small by lia. reflexivity.
  - intros fresh t tail rest c input Hc. subst input.
    rewrite DecodeRLP_list by assumption.
    unfold TxData.decode. rewrite decode_list by assumption. cbn [bind].
    assert (Ht : blen (Byte.x00 :: t) < 2 ^ 64).
    { subst c. rewrite blen_app in Hc.
      pose proof (blen_encodeString (Byte.x00 :: t)). pose proof (blen_nonneg tail). lia. }
    unfold rlp.field. subst c.
    destruct (rlp.encodeString (Byte.x00 :: t) ++ tail) eqn:E.
    { apply app_eq_nil in E as [E _]. exfalso. exact (encodeString_nonempty _ E). }
    rewrite <- E.
    destruct (Uint64_leading_zero true t tail Ht) as [-> | ->]; [left|right]; reflexivity.
  - intros fresh t tail rest c input Hc. subst input.
    rewrite DecodeRLP_list by assumption.
    unfold TxData.decode. rewrite decode_list by assumption. cbn [bind].
    subst c. rewrite !blen_app in Hc.
    pose proof (blen_encodeString (TxData.Price (Data msg))).
    pose proof (blen_encodeString (Byte.x00 :: t)).
    pose proof (blen_nonneg (Byte.x00 :: t)).
    pose proof (blen_nonneg tail).
    pose proof (blen_nonneg (rlp.writeUint (TxData.AccountNonce (Data msg)))).
    pose proof (blen_nonneg (rlp.encodeString (TxData.Price (Data msg)))).
    rewrite field_Uint64 by assumption. cbn [bind].
    rewrite field_Bytes by lia. cbn [bind].
    unfold rlp.field.
    destruct (rlp.encodeString (Byte.x00 :: t) ++ tail) eqn:E.
    { apply app_eq_nil in E as [E _]. exfalso. exact (encodeString_nonempty _ E). }
    rewrite <- E.
    destruct (Uint64_leading_zero true t tail ltac:(lia)) as [-> | ->];
      [left|right]; reflexivity.
Qed.

(** C8, as the claim has it, fails: an input whose amount is the string
    [00 01], the integer 1 with a leading zero byte, is decoded. *)
Lemma DecodeRLP_accepts_leading_zero :
  DecodeRLP (mkMsg (TxData.mk 0 [] 0 [] [] [] [] [] []) 0 ethcmn.Hash_zero None)
    Toy.wire_amount_leading_zero =
    Ok (mkMsg (TxData.mk 0 [Byte.x01] 21000 [] [Byte.x00; Byte.x01] [] [] [] [])
          14 ethcmn.Hash_zero None, []) /\
  big.Bytes (big.SetBytes [Byte.x00; Byte.x01]) = [Byte.x01] /\
  ~ (exists e,
       DecodeRLP (mkMsg (TxData.mk 0 [] 0 [] [] [] [] [] []) 0 ethcmn.Hash_zero None)
         Toy.wire_amount_leading_zero = Err e).
Proof.
  split; [vm_compute; reflexivity|]. split; [vm_compute; reflexivity|].
  intros [e He]. vm_compute in He. discriminate.
Qed.

Lemma DecodeRLP_EncodeRLP_witness :
  0 <= TxData.AccountNonce (Data Toy.signed) < 2 ^ 64 /\
  0 <= TxData.GasLimit (Data Toy.signed) < 2 ^ 64 /\
  exists enc,
    EncodeRLP Toy.signed = Ok enc /\
    (blen enc < 2 ^ 64 ->
     forall fresh rest,
       DecodeRLP fresh (enc ++ rest) =
         Ok (mkMsg (Data Toy.signed) (blen enc) (hash fresh) (from fresh), rest)) /\
    (forall fresh t tail rest,
        let c := rlp.encodeString (Byte.x00 :: t) ++ tail in
        let input := rlp.puthead 0xC0 (blen c) ++ c ++ rest in
        blen c < 2 ^ 64 ->
        DecodeRLP fresh input = Err ErrCanonInt \/
        DecodeRLP fresh input = Err ErrUintOverflow) /\
    (forall fresh t tail rest,
        let c := rlp.writeUint (TxData.AccountNonce (Data Toy.signed)) ++
                 rlp.encodeString (TxData.Price (Data Toy.signed)) ++
                 rlp.encodeString (Byte.x00 :: t) ++ tail in
        let input := rlp.puthead 0xC0 (blen c) ++ c ++ rest in
        blen c < 2 ^ 64 ->
        DecodeRLP fresh input = Err ErrCanonInt \/
        DecodeRLP fresh input = Err ErrUintOverflow).
Proof.
  split; [vm_compute; split; [discriminate|reflexivity]|].
  split; [vm_compute; split; [discriminate|reflexivity]|].
  apply (DecodeRLP_EncodeRLP Toy.signed); vm_compute; split; (discriminate || reflexivity).
Defined.

(** The signed toy message on the wire, and back. *)
Example wire_signed :
  exists enc,
    EncodeRLP Toy.signed = Ok enc /\
    map byte.unsigned enc =
      [0xdf; 0x80; 0x01; 0x82; 0x52; 0x08; 0x94;
       0x11; 0x11; 0x11; 0x11; 0x11; 0x11; 0x11; 0x11; 0x11; 0x11;
       0x11; 0x11; 0x11; 0x11; 0x11; 0x11; 0x11; 0x11; 0x11; 0x11;
       0x80; 0x80; 0x25; 0x01; 0x01] /\
    DecodeRLP (mkMsg (TxData.mk 0 [] 0 [] [] [] [] [] []) 0 ethcmn.Hash_zero None) enc =
      Ok (mkMsg (Data Toy.signed) 32 ethcmn.Hash_zero None, []).
Proof. eexists. split; [reflexivity|]. split; vm_compute; reflexivity. Qed.

(** ** Remarks on the recipient and on signing again *)

(** On the wire an empty recipient and the zero address differ, and each
    is read back as it was written. *)
Lemma recipient_slot inList rest :
  rlp.encodeString [] = [Byte.x80] /\
  rlp.encodeString ethcmn.Address_zero = Byte.x94 :: ethcmn.Address_zero /\
  rlp.Bytes inList (rlp.encodeString [] ++ rest) = Ok ([], rest) /\
  rlp.Bytes inList (rlp.encodeString ethcmn.Address_zero ++ rest) =
    Ok (ethcmn.Address_zero, rest).
Proof.
  split; [reflexivity|]. split; [reflexivity|].
  split; apply Bytes_encodeString; reflexivity.
Qed.

(** The signing hash does not tell them apart: [RLPSignBytes] turns the
    recipient into a 20-byte address first. *)
Lemma RLPSignBytes_empty_recipient Keccak256 nonce price gas amount payload v r s sz h c chainID :
  RLPSignBytes Keccak256
    (mkMsg (TxData.mk nonce price gas [] amount payload v r s) sz h c) chainID =
  RLPSignBytes Keccak256
    (mkMsg (TxData.mk nonce price gas ethcmn.Address_zero amount payload v r s) sz h c)
    chainID.
Proof. reflexivity. Qed.

(** [To] never returns nil. *)
Lemma To_not_nil msg : To msg <> None.
Proof. discriminate. Qed.

(** [Sign] leaves the sender cache as it is: a message verified for chain
    id 1 and then signed again with the other key still verifies to the
    sender of the first signature. *)
Example Toy_signing_again_keeps_sender :
  exists signed2,
    Sign Toy.PrivateKey Toy.Keccak256 Toy.ecdsaSign 1 false Toy.verified = Ok signed2 /\
    fst (fst (VerifySig Toy.Keccak256 Toy.Ecrecover 1 signed2 1)) =
      Ok (PubkeyToAddress Toy.PrivateKey Toy.Keccak256 Toy.FromECDSAPub true) /\
    PubkeyToAddress Toy.PrivateKey Toy.Keccak256 Toy.FromECDSAPub true <>
    PubkeyToAddress Toy.PrivateKey Toy.Keccak256 Toy.FromECDSAPub false.
Proof.
  eexists. split; [reflexivity|]. split; [vm_compute; reflexivity|].
  vm_compute. discriminate.
Qed.

(** * Further properties *)

(** ** Bytes of integers, again *)

Lemma BitLen_abs x : big.BitLen (Z.abs x) = big.BitLen x.
Proof.
  unfold big.BitLen. rewrite Z.abs_idemp.
  destruct (Z.eqb_spec x 0) as [->|Hx]; [reflexivity|].
  destruct (Z.eqb_spec (Z.abs x) 0); [lia|reflexivity].
Qed.

(** [Bytes] drops the sign. *)
Lemma Bytes_abs x : big.Bytes x = big.Bytes (Z.abs x).
Proof.
  unfold big.Bytes, big.byteLen. rewrite BitLen_abs, Z.abs_idemp. reflexivity.
Qed.

Lemma SetBytes_Bytes_abs x : big.SetBytes (big.Bytes x) = Z.abs x.
Proof. rewrite Bytes_abs. apply SetBytes_Bytes. lia. Qed.

Lemma no_leading_zero_Bytes x : no_leading_zero (big.Bytes x).
Proof.
  rewrite Bytes_abs. destruct (Z.eq_dec (Z.abs x) 0) as [->|Hx]; [exact I|].
  destruct (Bytes_head (Z.abs x) ltac:(lia)) as (b & t & -> & Hb). exact Hb.
Qed.

(** All bytes are zero exactly when the integer is. *)
Lemma le_combine_zero b : le_combine b = 0 <-> Forall (fun x => x = Byte.x00) b.
Proof.
  induction b as [|h t IH].
  - split; [constructor|reflexivity].
  - change (le_combine (h :: t))
      with (Z.lor (byte.unsigned h) (Z.shiftl (le_combine t) 8)).
    rewrite Z.lor_eq_0_iff, Z.shiftl_eq_0_iff by lia. rewrite IH. split.
    + intros [Hh Ht]. constructor; [|exact Ht].
      apply byte.unsigned_inj. rewrite Hh. reflexivity.
    + intros H. inversion H; subst. split; [reflexivity|assumption].
Qed.

Lemma SetBytes_zero b : big.SetBytes b = 0 <-> Forall (fun x => x = Byte.x00) b.
Proof.
  unfold big.SetBytes. rewrite le_combine_zero. split; intros H.
  - rewrite <- (rev_involutive b). apply Forall_rev. exact H.
  - apply Forall_rev. exact H.
Qed.

(** ** Basic validation *)

Lemma ValidateBasic_None msg :
  ValidateBasic msg = None <-> 0 < big.SetBytes (TxData.Price (Data msg)).
Proof.
  pose proof (SetBytes_nonneg (TxData.Price (Data msg))) as Hp.
  pose proof (SetBytes_nonneg (TxData.Amount (Data msg))) as Ha.
  unfold ValidateBasic, big.Sign.
  destruct (Z.eqb_spec (Z.sgn (big.SetBytes (TxData.Price (Data msg)))) 1) as [E|E]; simpl.
  - destruct (Z.eqb_spec (Z.sgn (big.SetBytes (TxData.Amount (Data msg)))) (-1)) as [E'|_];
      [lia|]. split; [lia|reflexivity].
  - split; [discriminate|]. lia.
Qed.

(** X1. [ValidateBasic] accepts a message exactly when its price has a byte
    that is not zero; the check of the amount never fails, since an
    amount read from bytes is not negative. *)
Theorem ValidateBasic_price msg :
  ValidateBasic msg <> Some ErrAmountNegative /\
  (ValidateBasic msg = None <-> 0 < big.SetBytes (TxData.Price (Data msg))) /\
  (ValidateBasic msg = None <->
   Exists (fun x => x <> Byte.x00) (TxData.Price (Data msg))) /\
  (ValidateBasic msg <> None -> ValidateBasic msg = Some ErrPriceNotPositive).
Proof.
  pose proof (SetBytes_nonneg (TxData.Price (Data msg))) as Hp.
  pose proof (SetBytes_nonneg (TxData.Amount (Data msg))) as Ha.
  split; [|split; [apply ValidateBasic_None|split]].
  - unfold ValidateBasic, big.Sign.
    destruct (negb _); [discriminate|].
    destruct (Z.eqb_spec (Z.sgn (big.SetBytes (TxData.Amount (Data msg)))) (-1)); [lia|].
    discriminate.
  - rewrite ValidateBasic_None.
    rewrite (Exists_Forall_neg (fun x => x = Byte.x00))
      by (intros x; destruct (Stdlib.Strings.Byte.byte_eq_dec x Byte.x00); tauto).
    rewrite <- SetBytes_zero. lia.
  - unfold ValidateBasic, big.Sign. destruct (negb _); [reflexivity|].
    destruct (Z.eqb_spec (Z.sgn (big.SetBytes (TxData.Amount (Data msg)))) (-1)); [lia|].
    intros H. contradiction.
Qed.

(** What the constructor builds. *)
Lemma newMsgEthereumTx_Ok nonce to amount gasLimit gasPrice payload msg :
  newMsgEthereumTx nonce to amount gasLimit gasPrice payload = Ok msg ->
  exists a,
    to = Some a /\
    msg = mkMsg
            (TxData.mk nonce
               match gasPrice with Some p => big.Bytes p | None => [] end
               gasLimit a
               match amount with Some v => big.Bytes v | None => [] end
               payload [] [] [])
            0 ethcmn.Hash_zero None.
Proof.
  unfold newMsgEthereumTx. intros H.
  destruct to as [a|]; simpl in H; [|discriminate]. exists a. split; [reflexivity|].
  injection H as <-. unfold ethcmn.CopyBytes.
  destruct (0 <? length payload)%nat, gasPrice, amount; reflexivity.
Qed.

(** The constructor keeps the magnitudes of the price and of the amount. *)
Lemma newMsgEthereumTx_values nonce to amount gasLimit gasPrice payload msg :
  newMsgEthereumTx nonce to amount gasLimit gasPrice payload = Ok msg ->
  big.SetBytes (TxData.Price (Data msg)) =
    match gasPrice with Some p => Z.abs p | None => 0 end /\
  big.SetBytes (TxData.Amount (Data msg)) =
    match amount with Some a => Z.abs a | None => 0 end /\
  TxData.GasLimit (Data msg) = gasLimit.
Proof.
  intros Hnew. apply newMsgEthereumTx_Ok in Hnew as (a & _ & ->).
  cbn [Data TxData.Price TxData.Amount TxData.GasLimit].
  split; [|split; [|reflexivity]].
  - destruct gasPrice; [apply SetBytes_Bytes_abs|reflexivity].
  - destruct amount; [apply SetBytes_Bytes_abs|reflexivity].
Qed.

(** X2. A message out of the constructor passes [ValidateBasic] exactly when a
    gas price was given and is not zero: the constructor keeps the
    magnitude of the price and of the amount, so a negative price passes
    too. *)
Theorem ValidateBasic_new nonce to amount gasLimit gasPrice payload msg :
  newMsgEthereumTx nonce to amount gasLimit gasPrice payload = Ok msg ->
  (ValidateBasic msg = None <-> exists p, gasPrice = Some p /\ p <> 0) /\
  big.SetBytes (TxData.Price (Data msg)) =
    match gasPrice with Some p => Z.abs p | None => 0 end /\
  big.SetBytes (TxData.Amount (Data msg)) =
    match amount with Some a => Z.abs a | None => 0 end.
Proof.
  intros Hnew. destruct (newMsgEthereumTx_values _ _ _ _ _ _ _ Hnew) as (Hp & Ha & _).
  split; [|split; [exact Hp|exact Ha]].
  rewrite ValidateBasic_None, Hp.
  destruct gasPrice as [p|].
  - split; [intros H; exists p; split; [reflexivity|lia]|].
    intros (q & Hq & Hne). injection Hq as <-. lia.
  - split; [lia|]. intros (q & Hq & _). discriminate.
Qed.

(** ** Fee and cost *)

(** X3. For a gas limit that is not negative, the fee is not negative and the
    cost is at least the fee; a message that passes [ValidateBasic] with a
    positive gas limit has a positive fee.  On a message out of the
    constructor the fee is the magnitude of the price times the gas
    limit, and the cost adds the magnitude of the amount. *)
Theorem Fee_Cost msg :
  0 <= TxData.GasLimit (Data msg) ->
  0 <= Fee msg <= Cost msg /\
  (ValidateBasic msg = None -> 0 < TxData.GasLimit (Data msg) -> 0 < Fee msg) /\
  (forall nonce to amount gasLimit gasPrice payload,
      newMsgEthereumTx nonce to amount gasLimit gasPrice payload = Ok msg ->
      Fee msg = match gasPrice with Some p => Z.abs p | None => 0 end * gasLimit /\
      Cost msg = match gasPrice with Some p => Z.abs p | None => 0 end * gasLimit
                 + match amount with Some a => Z.abs a | None => 0 end).
Proof.
  intros Hg.
  pose proof (SetBytes_nonneg (TxData.Price (Data msg))) as Hp.
  pose proof (SetBytes_nonneg (TxData.Amount (Data msg))) as Ha.
  unfold Cost, Fee. split; [|split].
  - split; [apply Z.mul_nonneg_nonneg; assumption|lia].
  - intros Hv Hpos. apply ValidateBasic_None in Hv.
    apply Z.mul_pos_pos; assumption.
  - intros nonce to amount gasLimit gasPrice payload Hnew.
    destruct (newMsgEthereumTx_values _ _ _ _ _ _ _ Hnew) as (-> & -> & ->).
    split; reflexivity.
Qed.

Lemma Fee_Cost_witness :
  0 <= TxData.GasLimit (Data Toy.tx0) /\
  0 <= Fee Toy.tx0 <= Cost Toy.tx0 /\
  (ValidateBasic Toy.tx0 = None -> 0 < TxData.GasLimit (Data Toy.tx0) -> 0 < Fee Toy.tx0) /\
  (forall nonce to amount gasLimit gasPrice payload,
      newMsgEthereumTx nonce to amount gasLimit gasPrice payload = Ok Toy.tx0 ->
      Fee Toy.tx0 = match gasPrice with Some p => Z.abs p | None => 0 end * gasLimit /\
      Cost Toy.tx0 = match gasPrice with Some p => Z.abs p | None => 0 end * gasLimit
                     + match amount with Some a => Z.abs a | None => 0 end).
Proof.
  split; [vm_compute; discriminate|].
  apply (Fee_Cost Toy.tx0). vm_compute. discriminate.
Defined.

Lemma ValidateBasic_new_witness :
  newMsgEthereumTx 0 (Some Toy.addr1) (Some 0) 21000 (Some 1) [] = Ok Toy.tx0 /\
  (ValidateBasic Toy.tx0 = None <-> exists p, Some 1 = Some p /\ p <> 0) /\
  big.SetBytes (TxData.Price (Data Toy.tx0)) = Z.abs 1 /\
  big.SetBytes (TxData.Amount (Data Toy.tx0)) = Z.abs 0.
Proof.
  split; [reflexivity|].
  apply (ValidateBasic_new 0 (Some Toy.addr1) (Some 0) 21000 (Some 1) [] Toy.tx0).
  reflexivity.
Defined.

(** A price of -5 passes, as 5. *)
Example ValidateBasic_negative_price :
  exists msg,
    NewMsgEthereumTx 0 (Some Toy.addr1) (Some (-3)) 21000 (Some (-5)) [] = Ok msg /\
    ValidateBasic msg = None /\ Fee msg = 105000 /\ Cost msg = 105003.
Proof. eexists. split; [reflexivity|]. repeat split. Qed.

(** ** The recipient *)

(** X4. [To] always returns an address of 20 bytes, never nil; for the empty
    recipient it returns the zero address, as for the zero address
    itself; on a message built with a recipient of 20 bytes it returns
    this recipient. *)
Theorem To_address msg :
  (exists a, To msg = Some a /\ length a = 20%nat) /\
  (TxData.Recipient (Data msg) = [] -> To msg = Some ethcmn.Address_zero) /\
  (TxData.Recipient (Data msg) = ethcmn.Address_zero ->
   To msg = Some ethcmn.Address_zero) /\
  (forall nonce to amount gasLimit gasPrice payload,
      newMsgEthereumTx nonce (Some to) amount gasLimit gasPrice payload = Ok msg ->
      length to = 20%nat -> To msg = Some to).
Proof.
  unfold To. split; [|split; [|split]].
  - eexists. split; [reflexivity|]. apply length_setBytes.
  - intros ->. reflexivity.
  - intros ->. reflexivity.
  - intros nonce to amount gasLimit gasPrice payload Hnew Hl.
    apply newMsgEthereumTx_Ok in Hnew as (a & Ha & ->). injection Ha as <-.
    cbn [Data TxData.Recipient]. unfold ethcmn.BytesToAddress.
    rewrite setBytes_id by exact Hl. reflexivity.
Qed.

(** ** What the constructor and [Sign] store *)

Section Stored.

Variable PrivateKey : Type.
Variable Keccak256 : bytes -> bytes.
Variable ecdsaSign : bytes -> PrivateKey -> option bytes.

(** [Sign] replaces [V], [R] and [S] and nothing else. *)
Lemma Sign_Ok chainID priv msg signed :
  Sign PrivateKey Keccak256 ecdsaSign chainID priv msg = Ok signed ->
  exists v r s,
    signed = with_Data msg (TxData.with_VRS (Data msg) (big.Bytes v) (big.Bytes r) (big.Bytes s)).
Proof.
  unfold Sign. intros H.
  destruct (ecdsaSign _ _); [|discriminate].
  destruct (negb _); [discriminate|]. injection H as <-.
  eexists. eexists. eexists. reflexivity.
Qed.

(** X5. The integers the constructor and [Sign] store have no leading zero
    byte, and are the bytes of the integer they stand for. *)
Theorem stored_integers_minimal msg :
  (forall nonce to amount gasLimit gasPrice payload,
      newMsgEthereumTx nonce to amount gasLimit gasPrice payload = Ok msg ->
      no_leading_zero (TxData.Price (Data msg)) /\
      no_leading_zero (TxData.Amount (Data msg)) /\
      big.Bytes (big.SetBytes (TxData.Price (Data msg))) = TxData.Price (Data msg) /\
      big.Bytes (big.SetBytes (TxData.Amount (Data msg))) = TxData.Amount (Data msg) /\
      TxData.V (Data msg) = [] /\ TxData.R (Data msg) = [] /\ TxData.S (Data msg) = []) /\
  (forall chainID priv signed,
      Sign PrivateKey Keccak256 ecdsaSign chainID priv msg = Ok signed ->
      no_leading_zero (TxData.V (Data signed)) /\
      no_leading_zero (TxData.R (Data signed)) /\
      no_leading_zero (TxData.S (Data signed)) /\
      big.Bytes (big.SetBytes (TxData.V (Data signed))) = TxData.V (Data signed) /\
      big.Bytes (big.SetBytes (TxData.R (Data signed))) = TxData.R (Data signed) /\
      big.Bytes (big.SetBytes (TxData.S (Data signed))) = TxData.S (Data signed)).
Proof.
  assert (Hmin : forall x, big.Bytes (big.SetBytes (big.Bytes x)) = big.Bytes x).
  { intros x. rewrite SetBytes_Bytes_abs. symmetry. apply Bytes_abs. }
  split.
  - intros nonce to amount gasLimit gasPrice payload Hnew.
    apply newMsgEthereumTx_Ok in Hnew as (a & _ & ->). cbn [Data TxData.Price TxData.Amount
      TxData.V TxData.R TxData.S].
    destruct gasPrice, amount; repeat split;
      try apply no_leading_zero_Bytes; try apply Hmin; try exact I.
  - intros chainID priv signed Hs. apply Sign_Ok in Hs as (v & r & s & ->).
    cbn [Data with_Data TxData.with_VRS TxData.V TxData.R TxData.S].
    repeat split; try apply no_leading_zero_Bytes; apply Hmin.
Qed.

End Stored.

(** ** More on verification *)

Lemma ValidateSignatureValues_recid v r s :
  v <> 0 -> v <> 1 -> ethcrypto.ValidateSignatureValues v r s true = false.
Proof.
  intros H0 H1. unfold ethcrypto.ValidateSignatureValues.
  destruct ((r <? 1) || (s <? 1)); [reflexivity|].
  destruct (true && _); [reflexivity|].
  destruct (Z.eqb_spec v 0); [contradiction|].
  destruct (Z.eqb_spec v 1); [contradiction|].
  simpl. apply andb_false_r.
Qed.

Lemma ValidateSignatureValues_zero v r s :
  r = 0 \/ s = 0 -> ethcrypto.ValidateSignatureValues v r s true = false.
Proof.
  intros H. unfold ethcrypto.ValidateSignatureValues.
  destruct (Z.ltb_spec r 1); [reflexivity|].
  destruct (Z.ltb_spec s 1); [reflexivity|]. lia.
Qed.

(** The recovery id that [recoverEthSig] computes from a value of at most
    8 bits in magnitude is 0 or 1 only for the magnitudes 27 and 28. *)
Lemma recovery_id_magnitude V' :
  Z.abs V' < 256 ->
  let v := wrap8 (wrap64 (big.Uint64 V' - 27)) in
  (v = 0 <-> Z.abs V' = 27) /\ (v = 1 <-> Z.abs V' = 28).
Proof.
  intros Hlt v. subst v. unfold wrap8, wrap64, big.Uint64.
  pose proof (Z.abs_nonneg V') as H0.
  change (2 ^ 64) with 18446744073709551616. change (2 ^ 8) with 256.
  rewrite (Z.mod_small (Z.abs V')) by lia.
  destruct (Z.le_gt_cases 27 (Z.abs V')) as [Hge|Hlow].
  - rewrite (Z.mod_small (Z.abs V' - 27)) by lia.
    rewrite (Z.mod_small (Z.abs V' - 27)) by lia. lia.
  - replace ((Z.abs V' - 27) mod 18446744073709551616)
      with (Z.abs V' - 27 + 18446744073709551616).
    2:{ symmetry. rewrite <- (Z.mod_add _ 1) by lia. apply Z.mod_small. lia. }
    replace ((Z.abs V' - 27 + 18446744073709551616) mod 256)
      with (Z.abs V' - 27 + 256).
    2:{ symmetry.
        replace (Z.abs V' - 27 + 18446744073709551616)
          with (Z.abs V' - 27 + 256 + 72057594037927935 * 256) by lia.
        rewrite Z.mod_add by lia. apply Z.mod_small. lia. }
    lia.
Qed.

Section Verification.

Variable PrivateKey : Type.
Variable Keccak256 : bytes -> bytes.
Variable ecdsaSign : bytes -> PrivateKey -> option bytes.
Variable Ecrecover : bytes -> bytes -> option bytes.

(** What a call of [recoverEthSig] can do. *)
Lemma recoverEthSig_outcome R S Vb h calls r n :
  recoverEthSig Keccak256 Ecrecover R S Vb h calls = (r, n) ->
  (n = calls \/ n = Datatypes.S calls) /\
  (r = Err ErrInvalidSignature -> n = calls) /\
  r <> Err ErrChainIDZero /\
  (forall a, r = Ok a -> length a = 20%nat).
Proof.
  unfold recoverEthSig, right_align.
  assert (Hfin : forall (r0 : result ethcmn.Address) n0,
             (n0 = calls \/ n0 = Datatypes.S calls) ->
             (r0 = Err ErrInvalidSignature -> n0 = calls) ->
             r0 <> Err ErrChainIDZero ->
             (forall a, r0 = Ok a -> length a = 20%nat) ->
             (r0, n0) = (r, n) ->
             (n = calls \/ n = Datatypes.S calls) /\
             (r = Err ErrInvalidSignature -> n = calls) /\
             r <> Err ErrChainIDZero /\
             (forall a, r = Ok a -> length a = 20%nat)).
  { intros r0 n0 H1 H2 H3 H4 E. injection E as <- <-. auto. }
  destruct (8 <? big.BitLen Vb);
    [apply Hfin; auto; (discriminate || (intros; discriminate))|].
  destruct (negb _);
    [apply Hfin; auto; (discriminate || (intros; discriminate))|].
  destruct (length (big.Bytes R) <=? 32)%nat;
    [|destruct (length (big.Bytes S) <=? 32)%nat;
      apply Hfin; auto; (discriminate || (intros; discriminate))].
  destruct (length (big.Bytes S) <=? 32)%nat;
    [|apply Hfin; auto; (discriminate || (intros; discriminate))].
  destruct (Ecrecover _ _) as [[|p0 xy]|];
    try (apply Hfin; auto; (discriminate || (intros; discriminate))).
  destruct (negb _);
    [apply Hfin; auto; (discriminate || (intros; discriminate))|].
  destruct (length (Keccak256 xy) <? 12)%nat;
    [apply Hfin; auto; (discriminate || (intros; discriminate))|].
  apply Hfin; auto; try discriminate.
  intros a Ha. injection Ha as <-. apply length_copy_into.
Qed.

(** X6. The values of [V] that [VerifySig(chainID)] lets through: without
    cache entry and for a chain id other than zero, every [V] other than
    [2*chainID + 35], [2*chainID + 36], [2*chainID - 19] and
    [2*chainID - 20] is an "invalid signature", found without calling
    [Ecrecover]. *)
Theorem VerifySig_accepted_V chainID msg calls :
  no_cache_entry chainID msg -> chainID <> 0 ->
  let V := big.SetBytes (TxData.V (Data msg)) in
  V <> chainID * 2 + 35 -> V <> chainID * 2 + 36 ->
  V <> chainID * 2 - 19 -> V <> chainID * 2 - 20 ->
  VerifySig Keccak256 Ecrecover chainID msg calls = (Err ErrInvalidSignature, msg, calls).
Proof.
  intros Hf Hc V H35 H36 H19 H20.
  apply VerifySig_invalid; try assumption. fold V.
  destruct (Z.le_gt_cases 256 (Z.abs (V - chainID * 2 - 8))) as [Hbig|Hsmall];
    [left; exact Hbig|right].
  destruct (recovery_id_magnitude (V - chainID * 2 - 8) Hsmall) as [E0 E1].
  apply ValidateSignatureValues_recid; intros E; [apply E0 in E|apply E1 in E]; lia.
Qed.

(** A message whose [R] or [S] is zero, an unsigned message for one, is
    never verified: an "invalid signature" for every chain id other than
    zero, without calling [Ecrecover]. *)
Theorem VerifySig_unsigned chainID msg calls :
  no_cache_entry chainID msg -> chainID <> 0 ->
  big.SetBytes (TxData.R (Data msg)) = 0 \/ big.SetBytes (TxData.S (Data msg)) = 0 ->
  VerifySig Keccak256 Ecrecover chainID msg calls = (Err ErrInvalidSignature, msg, calls).
Proof.
  intros Hf Hc H. apply VerifySig_invalid; try assumption.
  right. apply ValidateSignatureValues_zero. exact H.
Qed.

(** X7. A message out of the constructor is verified for no chain id. *)
Theorem VerifySig_new nonce to amount gasLimit gasPrice payload msg chainID calls :
  newMsgEthereumTx nonce to amount gasLimit gasPrice payload = Ok msg ->
  VerifySig Keccak256 Ecrecover chainID msg calls =
    (Err (if chainID =? 0 then ErrChainIDZero else ErrInvalidSignature), msg, calls).
Proof.
  intros Hnew. apply newMsgEthereumTx_Ok in Hnew as (a & _ & ->).
  destruct (Z.eqb_spec chainID 0) as [->|Hc]; [reflexivity|].
  apply VerifySig_unsigned; [intros c Hcache; discriminate Hcache|exact Hc|].
  left. reflexivity.
Qed.

(** X8. What a call of [VerifySig] can do: it calls [Ecrecover] at most once,
    and not at all when it answers from the cache or refuses the chain id
    or the signature values; an address it returns has 20 bytes; when it
    returns no address it leaves the message, its cache included, as it
    was. *)
Theorem VerifySig_outcome chainID msg calls r msg' calls' :
  VerifySig Keccak256 Ecrecover chainID msg calls = (r, msg', calls') ->
  (calls' = calls \/ calls' = S calls) /\
  (r = Err ErrChainIDZero \/ r = Err ErrInvalidSignature -> calls' = calls) /\
  (forall a, r = Ok a -> length a = 20%nat) /\
  ((forall a, r <> Ok a) -> msg' = msg).
Proof.
  intros H.
  assert (Hstate := VerifySig_state _ _ _ _ _ _ _ _ H).
  assert (Hcalls : (calls' = calls \/ calls' = S calls) /\
                   (r = Err ErrChainIDZero \/ r = Err ErrInvalidSignature -> calls' = calls) /\
                   (forall a, r = Ok a -> length a = 20%nat)).
  { unfold VerifySig in H.
    assert (Hmiss :
      (if big.Sign chainID =? 0 then (Err ErrChainIDZero, msg, calls)
       else
         match recoverEthSig Keccak256 Ecrecover
                 (big.SetBytes (TxData.R (Data msg))) (big.SetBytes (TxData.S (Data msg)))
                 (big.SetBytes (TxData.V (Data msg)) - chainID * 2 - 8)
                 (RLPSignBytes Keccak256 msg chainID) calls with
         | (Ok sender, calls0) =>
             (Ok sender,
              with_from msg (Some (SigCache.mk (ethtypes.NewEIP155Signer chainID)
                                     (ethcmn.Address_Bytes sender))), calls0)
         | (Err e, calls0) => (Err e, msg, calls0)
         | (Panic p, calls0) => (Panic p, msg, calls0)
         end) = (r, msg', calls') ->
      (calls' = calls \/ calls' = S calls) /\
      (r = Err ErrChainIDZero \/ r = Err ErrInvalidSignature -> calls' = calls) /\
      (forall a, r = Ok a -> length a = 20%nat)).
    { clear H Hstate. intros H.
      destruct (big.Sign chainID =? 0).
      - injection H as <- _ <-. repeat split; auto; intros; discriminate.
      - destruct (recoverEthSig _ _ _ _ _ _ _) as [r0 n] eqn:E.
        apply recoverEthSig_outcome in E as (E1 & E2 & E3 & E4).
        destruct r0 as [a|e|q]; injection H as <- _ <-.
        + split; [exact E1|]. split; [intros [X|X]; discriminate X|exact E4].
        + split; [exact E1|]. split; [|intros a Ha; discriminate Ha].
          intros [X|X]; [exfalso; exact (E3 X)|exact (E2 X)].
        + split; [exact E1|]. split; [intros [X|X]; discriminate X|].
          intros a Ha; discriminate Ha. }
    destruct (from msg) as [c|]; [|exact (Hmiss H)].
    destruct (ethtypes.Equal _ _); [|exact (Hmiss H)].
    injection H as <- _ <-. split; [left; reflexivity|]. split; [intros _; reflexivity|].
    intros a Ha. injection Ha as <-. apply length_setBytes. }
  destruct Hcalls as (H1 & H2 & H3). repeat split; try assumption.
  intros Hno. destruct Hstate as [->|(a & -> & _)]; [reflexivity|].
  exfalso. exact (Hno a eq_refl).
Qed.

(** X9. [Sign] and [DecodeRLP] leave the sender cache as it is, and a cache
    entry for the chain id answers [VerifySig] whatever the data are: a
    message that holds a cached sender for [chainID] still returns this
    sender, without calling [Ecrecover], after it was signed again with
    any key or after other data were decoded into it. *)
Theorem VerifySig_cache_survives chainID msg c calls :
  from msg = Some c ->
  ethtypes.chainId (SigCache.signer c) = chainID ->
  (forall chainID' priv signed,
      Sign PrivateKey Keccak256 ecdsaSign chainID' priv msg = Ok signed ->
      from signed = Some c /\ hash signed = hash msg /\ size signed = size msg /\
      VerifySig Keccak256 Ecrecover chainID signed calls =
        (Ok (ethcmn.BytesToAddress (SigCache.from c)), signed, calls)) /\
  (forall s decoded s',
      DecodeRLP msg s = Ok (decoded, s') ->
      from decoded = Some c /\ hash decoded = hash msg /\
      VerifySig Keccak256 Ecrecover chainID decoded calls =
        (Ok (ethcmn.BytesToAddress (SigCache.from c)), decoded, calls)).
Proof.
  intros Hf Hc. split.
  - intros chainID' priv signed Hs.
    apply (Sign_Ok PrivateKey Keccak256 ecdsaSign) in Hs as (v & r & s & ->).
    split; [exact Hf|]. split; [reflexivity|]. split; [reflexivity|].
    apply VerifySig_hit; assumption.
  - intros s decoded s' Hd. unfold DecodeRLP in Hd.
    destruct (rlp.Kind false s) as [[[k sz] t]|e|p]; simpl in Hd; try discriminate.
    destruct (TxData.decode s) as [[d t']|e|p]; simpl in Hd; try discriminate.
    injection Hd as <- _.
    split; [exact Hf|]. split; [reflexivity|].
    apply VerifySig_hit; assumption.
Qed.

Hypothesis keccak_ok : KeccakContract Keccak256.

(** X10. With a digest of 32 bytes [VerifySig] does not panic: whatever the
    message holds, it returns an address or an error. *)
Theorem VerifySig_no_panic chainID msg calls p :
  fst (fst (VerifySig Keccak256 Ecrecover chainID msg calls)) <> Panic p.
Proof.
  assert (Hrec : forall R S Vb h n,
             fst (recoverEthSig Keccak256 Ecrecover R S Vb h n) <> Panic p).
  { intros R S Vb h n. unfold recoverEthSig.
    destruct (8 <? big.BitLen Vb); [discriminate|].
    destruct (ethcrypto.ValidateSignatureValues _ R S true) eqn:Hv; [|discriminate].
    apply ValidateSignatureValues_true in Hv as (_ & HR & HS). simpl negb. cbv iota.
    assert (HN : ethcrypto.secp256k1N < 2 ^ (8 * Z.of_nat 32)) by reflexivity.
    assert (HhN : ethcrypto.secp256k1halfN < 2 ^ (8 * Z.of_nat 32)) by reflexivity.
    unfold right_align. rewrite !length_Bytes.
    destruct (Nat.leb_spec (big.byteLen R) 32) as [_|Hbad];
      [|pose proof (byteLen_le R 32 ltac:(lia)); lia].
    destruct (Nat.leb_spec (big.byteLen S) 32) as [_|Hbad];
      [|pose proof (byteLen_le S 32 ltac:(lia)); lia].
    destruct (Ecrecover _ _) as [[|p0 xy]|]; try discriminate.
    destruct (negb _); [discriminate|].
    rewrite keccak_ok. simpl. discriminate. }
  unfold VerifySig.
  assert (Hmiss : forall m n,
    fst (fst (if big.Sign chainID =? 0 then (Err ErrChainIDZero, m, n)
       else
         match recoverEthSig Keccak256 Ecrecover
                 (big.SetBytes (TxData.R (Data m))) (big.SetBytes (TxData.S (Data m)))
                 (big.SetBytes (TxData.V (Data m)) - chainID * 2 - 8)
                 (RLPSignBytes Keccak256 m chainID) n with
         | (Ok sender, calls0) =>
             (Ok sender,
              with_from m (Some (SigCache.mk (ethtypes.NewEIP155Signer chainID)
                                     (ethcmn.Address_Bytes sender))), calls0)
         | (Err e, calls0) => (Err e, m, calls0)
         | (Panic p, calls0) => (Panic p, m, calls0)
         end)) <> Panic p).
  { intros m n. destruct (big.Sign chainID =? 0); [discriminate|].
    specialize (Hrec (big.SetBytes (TxData.R (Data m))) (big.SetBytes (TxData.S (Data m)))
                     (big.SetBytes (TxData.V (Data m)) - chainID * 2 - 8)
                     (RLPSignBytes Keccak256 m chainID) n).
    destruct (recoverEthSig _ _ _ _ _ _ _) as [[a|e|q] n']; simpl in *;
      [discriminate|discriminate|exact Hrec]. }
  destruct (from msg) as [c|]; [|apply Hmiss].
  destruct (ethtypes.Equal _ _); [discriminate|apply Hmiss].
Qed.

End Verification.

(** ** More on the chain id *)

Lemma deriveChainID_unprotected V : V = 27 \/ V = 28 -> deriveChainID V = 0.
Proof. intros [-> | ->]; reflexivity. Qed.

Lemma deriveChainID_below_35 V :
  0 <= V < 35 -> V <> 27 -> V <> 28 ->
  deriveChainID V = (V - 35 + 2 ^ 64) / 2.
Proof.
  intros HV H27 H28. unfold deriveChainID.
  assert (Hb : big.BitLen V <= 64).
  { apply BitLen_le; [|lia]. split; [lia|]. apply Z.lt_trans with 35; [lia|reflexivity]. }
  destruct (Z.leb_spec (big.BitLen V) 64); [|lia].
  unfold big.Uint64, wrap64. rewrite Z.abs_eq by lia.
  change (2 ^ 64) with 18446744073709551616.
  rewrite (Z.mod_small V) by lia.
  destruct (Z.eqb_spec V 27); [lia|]. destruct (Z.eqb_spec V 28); [lia|]. simpl.
  f_equal.
  rewrite <- (Z.mod_small (V - 35 + 18446744073709551616) 18446744073709551616) by lia.
  rewrite <- (Z.mod_add (V - 35) 1 18446744073709551616) by lia. f_equal.
Qed.

(** X13. The chain id of a message is never negative; it is zero exactly for
    the [V] values 27, 28, 35 and 36; and it is a given chain id between 0
    and [2^63 - 18] exactly for the two [V] values the signer writes for
    it, [2*chainID + 35] and [2*chainID + 36]. *)
Theorem ChainID_of_V msg :
  let V := big.SetBytes (TxData.V (Data msg)) in
  0 <= ChainID msg /\
  (ChainID msg = 0 <-> V = 27 \/ V = 28 \/ V = 35 \/ V = 36) /\
  (forall chainID,
      0 < chainID < 2 ^ 63 - 18 ->
      (ChainID msg = chainID <-> V = chainID * 2 + 35 \/ V = chainID * 2 + 36)).
Proof.
  intros V. unfold ChainID. fold V.
  pose proof (SetBytes_nonneg (TxData.V (Data msg))) as HV. fold V in HV.
  change (2 ^ 63) with 9223372036854775808.
  destruct (Z.lt_ge_cases V 35) as [Hlow|Hhigh].
  - destruct (Z.eq_dec V 27) as [E27|N27];
      [rewrite (deriveChainID_unprotected V) by auto; repeat split; intros; lia|].
    destruct (Z.eq_dec V 28) as [E28|N28];
      [rewrite (deriveChainID_unprotected V) by auto; repeat split; intros; lia|].
    rewrite deriveChainID_below_35 by lia.
    change (2 ^ 64) with 18446744073709551616.
    assert (9223372036854775790 <= (V - 35 + 18446744073709551616) / 2)
      by (Z.div_mod_to_equations; lia).
    repeat split; intros; lia.
  - rewrite deriveChainID_protected by lia.
    assert (Hq : forall c, (V - 35) / 2 = c <-> V = c * 2 + 35 \/ V = c * 2 + 36)
      by (intros c; Z.div_mod_to_equations; lia).
    split; [Z.div_mod_to_equations; lia|]. split.
    + rewrite Hq. lia.
    + intros chainID _. apply Hq.
Qed.

Example ChainID_of_35 :
  ChainID (with_Data Toy.tx0 (TxData.with_VRS (Data Toy.tx0) [Byte.x23] [] [])) = 0.
Proof. reflexivity. Qed.

(** ** More on the wire encoding *)

(** X14. The encoding tells messages apart: two messages with the same
    encoding have the same data. *)
Theorem EncodeRLP_injective msg1 msg2 :
  0 <= TxData.AccountNonce (Data msg1) < 2 ^ 64 ->
  0 <= TxData.GasLimit (Data msg1) < 2 ^ 64 ->
  0 <= TxData.AccountNonce (Data msg2) < 2 ^ 64 ->
  0 <= TxData.GasLimit (Data msg2) < 2 ^ 64 ->
  blen (wire_content (Data msg1)) < 2 ^ 64 ->
  blen (wire_content (Data msg2)) < 2 ^ 64 ->
  EncodeRLP msg1 = EncodeRLP msg2 ->
  Data msg1 = Data msg2.
Proof.
  intros Hn1 Hg1 Hn2 Hg2 Hl1 Hl2 E. rewrite !EncodeRLP_content in E. injection E as E.
  pose proof (decode_wire_content (Data msg1) [] Hn1 Hg1 Hl1) as D1.
  pose proof (decode_wire_content (Data msg2) [] Hn2 Hg2 Hl2) as D2.
  rewrite !app_nil_r in D1, D2. rewrite E in D1. rewrite D1 in D2.
  injection D2 as ->. reflexivity.
Qed.

Lemma EncodeRLP_injective_witness :
  0 <= TxData.AccountNonce (Data Toy.tx0) < 2 ^ 64 /\
  0 <= TxData.GasLimit (Data Toy.tx0) < 2 ^ 64 /\
  blen (wire_content (Data Toy.tx0)) < 2 ^ 64 /\
  EncodeRLP Toy.tx0 = EncodeRLP (with_from Toy.tx0 None) /\
  Data Toy.tx0 = Data (with_from Toy.tx0 None).
Proof.
  assert (Hn : 0 <= TxData.AccountNonce (Data Toy.tx0) < 2 ^ 64)
    by (vm_compute; split; [discriminate|reflexivity]).
  assert (Hg : 0 <= TxData.GasLimit (Data Toy.tx0) < 2 ^ 64)
    by (vm_compute; split; [discriminate|reflexivity]).
  assert (Hl : blen (wire_content (Data Toy.tx0)) < 2 ^ 64) by (vm_compute; reflexivity).
  split; [exact Hn|]. split; [exact Hg|]. split; [exact Hl|]. split; [reflexivity|].
  exact (EncodeRLP_injective Toy.tx0 (with_from Toy.tx0 None) Hn Hg Hn Hg Hl Hl eq_refl).
Defined.

(** The bytes of the integer that a slice without leading zero stands
    for are the slice. *)
Lemma Bytes_SetBytes b : no_leading_zero b -> big.Bytes (big.SetBytes b) = b.
Proof.
  destruct b as [|x t]; [reflexivity|]. intros Hx. simpl in Hx.
  pose proof (SetBytes_nonneg (x :: t)) as H0.
  pose proof (SetBytes_bound (x :: t)) as Hb.
  assert (Hsplit : le_split (length (x :: t)) (big.SetBytes (x :: t)) = rev (x :: t)).
  { unfold big.SetBytes. rewrite <- (length_rev (x :: t)). apply split_le_combine. }
  assert (Hlow : 2 ^ (8 * Z.of_nat (length t)) <= big.SetBytes (x :: t)).
  { destruct (Z.le_gt_cases (2 ^ (8 * Z.of_nat (length t))) (big.SetBytes (x :: t)))
      as [|Hlt]; [assumption|exfalso].
    assert (Hi : (length t < length (x :: t))%nat) by apply Nat.lt_succ_diag_r.
    pose proof (nth_error_le_split (length t) (length (x :: t)) (big.SetBytes (x :: t)) Hi)
      as Hn.
    rewrite Z.shiftr_div_pow2, Z.div_small in Hn by lia.
    rewrite Hsplit in Hn. simpl rev in Hn.
    rewrite nth_error_app2 in Hn by (rewrite length_rev; lia).
    rewrite length_rev, Nat.sub_diag in Hn. cbn [nth_error] in Hn. injection Hn as Hn.
    apply Hx. rewrite Hn. reflexivity. }
  assert (Hk : big.byteLen (big.SetBytes (x :: t)) = length (x :: t)).
  { assert (big.byteLen (big.SetBytes (x :: t)) <= length (x :: t))%nat
      by (apply byteLen_le; unfold blen in Hb; lia).
    assert (length t < big.byteLen (big.SetBytes (x :: t)))%nat
      by (apply byteLen_lt; lia).
    simpl length in *. lia. }
  unfold big.Bytes. rewrite Hk, Z.abs_eq by lia. rewrite Hsplit. apply rev_involutive.
Qed.

(** What [readUint] has read. *)
Lemma readUint_inv inList size inp v rest :
  1 <= size <= 8 ->
  rlp.readUint inList size inp = Ok (v, rest) ->
  exists buf,
    inp = buf ++ rest /\ blen buf = size /\ v = big.SetBytes buf /\
    (v <> 0 -> big.Bytes v = buf).
Proof.
  intros Hs. unfold rlp.readUint.
  destruct (Z.eqb_spec size 0); [lia|].
  destruct (Z.eqb_spec size 1) as [E1|N1].
  - destruct inp as [|b r]; [discriminate|]. intros H. injection H as <- <-.
    exists [b]. split; [reflexivity|]. split; [rewrite E1; reflexivity|].
    split; [symmetry; apply SetBytes_single|].
    intros Hv. rewrite <- SetBytes_single. apply Bytes_SetBytes. exact Hv.
  - destruct (Z.ltb_spec (blen inp) size) as [|Hlen]; [discriminate|].
    destruct (firstn (Z.to_nat size) inp) as [|b t] eqn:Ef.
    + apply (f_equal (@length byte)) in Ef. rewrite length_firstn in Ef.
      unfold blen in Hlen. simpl in Ef. lia.
    + destruct (Z.eqb_spec (byte.unsigned b) 0) as [|Hb]; [discriminate|].
      intros H. injection H as <- <-. exists (b :: t).
      split; [rewrite <- Ef; symmetry; apply firstn_skipn|].
      split.
      { rewrite <- Ef. unfold blen in *. rewrite length_firstn. lia. }
      split; [reflexivity|]. intros _. apply Bytes_SetBytes. exact Hb.
Qed.

Lemma SetBytes_uint64 buf : blen buf <= 8 -> 0 <= big.SetBytes buf < 2 ^ 64.
Proof.
  intros H. pose proof (SetBytes_nonneg buf). pose proof (SetBytes_bound buf) as Hb.
  split; [assumption|]. eapply Z.lt_le_trans; [exact Hb|].
  apply Z.pow_le_mono_r; lia.
Qed.

(** What [Kind] has read: the byte itself, or the size tag of a string or
    of a list, as the encoder writes it. *)
Lemma Kind_inv inList inp k size rest :
  rlp.Kind inList inp = Ok (k, size, rest) ->
  match k with
  | rlp.KByte b => inp = b :: rest /\ byte.unsigned b < 0x80 /\ size = 0
  | rlp.KString =>
      inp = rlp.puthead 0x80 size ++ rest /\ 0 <= size < 2 ^ 64 /\ size <= blen rest
  | rlp.KList =>
      inp = rlp.puthead 0xC0 size ++ rest /\ 0 <= size < 2 ^ 64 /\ size <= blen rest
  end.
Proof.
  unfold rlp.Kind, rlp.readKind. destruct inp as [|b r]; [discriminate|].
  pose proof (byte.unsigned_range b) as Hb. change (2 ^ 8) with 256 in Hb.
  assert (Hlarge : forall tag n size0 rest0,
             byte.unsigned b = tag + 55 + n -> 1 <= n <= 8 ->
             rlp.readUint inList n r = Ok (size0, rest0) -> 56 <= size0 ->
             b :: r = rlp.puthead tag size0 ++ rest0 /\ 0 <= size0 < 2 ^ 64).
  { intros tag n size0 rest0 Eb Hn Hr H56.
    apply readUint_inv in Hr as (buf & -> & Hl & -> & HB); [|exact Hn].
    specialize (HB ltac:(lia)). split; [|apply SetBytes_uint64; lia].
    unfold rlp.puthead. destruct (Z.ltb_spec (big.SetBytes buf) 56); [lia|].
    rewrite HB, Hl, <- Eb, byte.of_Z_unsigned. reflexivity. }
  destruct (Z.ltb_spec (byte.unsigned b) 0x80).
  - cbn [bind]. destruct (Z.ltb_spec (blen r) 0); [discriminate|].
    intros Eq. injection Eq as <- <- <-. auto.
  - destruct (Z.ltb_spec (byte.unsigned b) 0xB8).
    + cbn [bind]. destruct (Z.ltb_spec (blen r) (byte.unsigned b - 0x80)); [discriminate|].
      intros Eq. injection Eq as <- <- <-. split; [|split; [lia|assumption]].
      unfold rlp.puthead. destruct (Z.ltb_spec (byte.unsigned b - 0x80) 56); [|lia].
      replace (0x80 + (byte.unsigned b - 0x80)) with (byte.unsigned b) by lia.
      rewrite byte.of_Z_unsigned. reflexivity.
    + destruct (Z.ltb_spec (byte.unsigned b) 0xC0).
      * destruct (rlp.readUint inList (byte.unsigned b - 0xB7) r) as [[s0 r0]|e|p] eqn:Er;
          cbn [bind]; try discriminate.
        destruct (Z.ltb_spec s0 56); [discriminate|]. cbn [bind].
        destruct (Z.ltb_spec (blen r0) s0); [discriminate|].
        intros Eq. injection Eq as <- <- <-.
        destruct (Hlarge 0x80 (byte.unsigned b - 0xB7) s0 r0) as [E Hr]; try lia; try assumption.
        auto.
      * destruct (Z.ltb_spec (byte.unsigned b) 0xF8).
        -- cbn [bind]. destruct (Z.ltb_spec (blen r) (byte.unsigned b - 0xC0)); [discriminate|].
           intros Eq. injection Eq as <- <- <-. split; [|split; [lia|assumption]].
           unfold rlp.puthead. destruct (Z.ltb_spec (byte.unsigned b - 0xC0) 56); [|lia].
           replace (0xC0 + (byte.unsigned b - 0xC0)) with (byte.unsigned b) by lia.
           rewrite byte.of_Z_unsigned. reflexivity.
        -- destruct (rlp.readUint inList (byte.unsigned b - 0xF7) r) as [[s0 r0]|e|p] eqn:Er;
             cbn [bind]; try discriminate.
           destruct (Z.ltb_spec s0 56); [discriminate|]. cbn [bind].
           destruct (Z.ltb_spec (blen r0) s0); [discriminate|].
           intros Eq. injection Eq as <- <- <-.
           destruct (Hlarge 0xC0 (byte.unsigned b - 0xF7) s0 r0) as [E Hr];
             try lia; try assumption.
           auto.
Qed.

Lemma firstn_skipn_blen (size : Z) (l : bytes) :
  0 <= size <= blen l ->
  l = firstn (Z.to_nat size) l ++ skipn (Z.to_nat size) l /\
  blen (firstn (Z.to_nat size) l) = size.
Proof.
  intros H. split; [symmetry; apply firstn_skipn|].
  unfold blen in *. rewrite length_firstn. lia.
Qed.

(** What [Bytes] has read is the encoding of the slice it returns. *)
Lemma Bytes_inv inList inp b rest :
  rlp.Bytes inList inp = Ok (b, rest) ->
  inp = rlp.encodeString b ++ rest /\ blen b < 2 ^ 64.
Proof.
  unfold rlp.Bytes.
  destruct (rlp.Kind inList inp) as [[[k size] r]|e|p] eqn:EK; cbn [bind]; try discriminate.
  apply Kind_inv in EK. destruct k as [x| |]; [| |discriminate].
  - destruct EK as (-> & Hx & _). intros Eq. injection Eq as <- <-.
    split; [|reflexivity]. unfold rlp.encodeString.
    destruct (Z.leb_spec (byte.unsigned x) 0x7F); [reflexivity|lia].
  - destruct EK as (-> & Hs & Hr).
    destruct (firstn_skipn_blen size r ltac:(lia)) as [Er Hl].
    assert (Hgen : forall rest0,
               Ok (firstn (Z.to_nat size) r, skipn (Z.to_nat size) r) = Ok (b, rest0) ->
               (match b with [x] => 128 <= byte.unsigned x | _ => True end) ->
               rlp.puthead 0x80 size ++ r = rlp.encodeString b ++ rest0 /\ blen b < 2 ^ 64).
    { intros rest0 Eq Hb. injection Eq as Eb Erest. rewrite Eb, Erest in *.
      split; [|lia]. rewrite Er at 1. rewrite app_assoc. f_equal.
      unfold rlp.encodeString. destruct b as [|x [|y t]].
      - rewrite app_nil_r. rewrite <- Hl. reflexivity.
      - destruct (Z.leb_spec (byte.unsigned x) 0x7F); [lia|]. rewrite <- Hl. reflexivity.
      - rewrite <- Hl. reflexivity. }
    destruct (firstn (Z.to_nat size) r) as [|x [|y t]] eqn:Ef.
    + intros Eq. apply Hgen; [exact Eq|]. injection Eq as <- _. exact I.
    + destruct (Z.ltb_spec (byte.unsigned x) 128); [discriminate|].
      intros Eq. apply Hgen; [exact Eq|]. injection Eq as <- _. assumption.
    + intros Eq. apply Hgen; [exact Eq|]. injection Eq as <- _. exact I.
Qed.

(** What [Uint64] has read is the encoding of the integer it returns. *)
Lemma Uint64_inv inList inp v rest :
  rlp.Uint64 inList inp = Ok (v, rest) ->
  inp = rlp.writeUint v ++ rest /\ 0 <= v < 2 ^ 64.
Proof.
  unfold rlp.Uint64.
  destruct (rlp.Kind inList inp) as [[[k size] r]|e|p] eqn:EK; cbn [bind]; try discriminate.
  apply Kind_inv in EK. destruct k as [x| |]; [| |discriminate].
  - destruct EK as (-> & Hx & _).
    pose proof (byte.unsigned_range x) as Hr.
    destruct (Z.eqb_spec (byte.unsigned x) 0) as [|Hx0]; [discriminate|].
    intros Eq. injection Eq as <- <-. split; [|split; [lia|]].
    + unfold rlp.writeUint.
      destruct (Z.eqb_spec (byte.unsigned x) 0); [contradiction|].
      destruct (Z.ltb_spec (byte.unsigned x) 128); [|lia].
      rewrite byte.of_Z_unsigned. reflexivity.
    + apply Z.lt_trans with 128; [lia|reflexivity].
  - destruct EK as (-> & Hs & Hr).
    destruct (Z.ltb_spec 8 size) as [|H8]; [discriminate|].
    destruct (Z.eq_dec size 0) as [->|Hs0].
    + unfold rlp.readUint. simpl. intros Eq. injection Eq as <- <-.
      split; [reflexivity|]. split; [lia|reflexivity].
    + destruct (rlp.readUint inList size r) as [[v0 r0]|e|p] eqn:Er.
      * destruct (Z.ltb_spec 0 size); [|lia].
        destruct (Z.ltb_spec v0 128) as [|Hv]; [discriminate|]. simpl andb. cbv iota.
        intros Eq. injection Eq as <- <-.
        apply readUint_inv in Er as (buf & -> & Hl & -> & HB); [|lia].
        specialize (HB ltac:(lia)). split; [|apply SetBytes_uint64; lia].
        unfold rlp.writeUint, rlp.puthead.
        destruct (Z.eqb_spec (big.SetBytes buf) 0); [lia|].
        destruct (Z.ltb_spec (big.SetBytes buf) 128); [lia|].
        destruct (Z.ltb_spec size 56); [|lia].
        rewrite HB, Hl. reflexivity.
      * destruct e; discriminate.
      * discriminate.
Qed.

Lemma field_inv {A} (dec : bool -> bytes -> result (A * bytes)) c x c' :
  rlp.field dec c = Ok (x, c') -> dec true c = Ok (x, c').
Proof. unfold rlp.field. destruct c; [discriminate|auto]. Qed.

(** What the struct decoder has read is the list that [EncodeRLP] writes
    for the data it returns. *)
Lemma decode_inv inp d rest :
  TxData.decode inp = Ok (d, rest) ->
  inp = rlp.puthead 0xC0 (blen (wire_content d)) ++ wire_content d ++ rest /\
  0 <= TxData.AccountNonce d < 2 ^ 64 /\
  0 <= TxData.GasLimit d < 2 ^ 64 /\
  blen (wire_content d) < 2 ^ 64 /\
  rlp.Kind false inp = Ok (rlp.KList, blen (wire_content d), wire_content d ++ rest).
Proof.
  unfold TxData.decode, rlp.List.
  destruct (rlp.Kind false inp) as [[[k size] r]|e|p] eqn:EK; cbn [bind]; try discriminate.
  pose proof EK as EK'. apply Kind_inv in EK'.
  destruct k as [x| |]; cbn [bind]; try discriminate.
  destruct EK' as (Einp & Hs & Hr).
  destruct (firstn_skipn_blen size r ltac:(lia)) as [Er Hl].
  destruct (rlp.field rlp.Uint64 _) as [[nonce c1]|e|p] eqn:F1; cbn [bind]; try discriminate.
  destruct (rlp.field rlp.Bytes c1) as [[price c2]|e|p] eqn:F2; cbn [bind]; try discriminate.
  destruct (rlp.field rlp.Uint64 c2) as [[gas c3]|e|p] eqn:F3; cbn [bind]; try discriminate.
  destruct (rlp.field rlp.Bytes c3) as [[to c4]|e|p] eqn:F4; cbn [bind]; try discriminate.
  destruct (rlp.field rlp.Bytes c4) as [[amount c5]|e|p] eqn:F5; cbn [bind]; try discriminate.
  destruct (rlp.field rlp.Bytes c5) as [[payload c6]|e|p] eqn:F6; cbn [bind]; try discriminate.
  destruct (rlp.field rlp.Bytes c6) as [[v c7]|e|p] eqn:F7; cbn [bind]; try discriminate.
  destruct (rlp.field rlp.Bytes c7) as [[r0 c8]|e|p] eqn:F8; cbn [bind]; try discriminate.
  destruct (rlp.field rlp.Bytes c8) as [[s c9]|e|p] eqn:F9; cbn [bind]; try discriminate.
  destruct c9; cbn [rlp.ListEnd bind]; [|discriminate].
  intros Eq. injection Eq as <- <-.
  apply field_inv, Uint64_inv in F1 as [E1 Hn].
  apply field_inv, Bytes_inv in F2 as [E2 _].
  apply field_inv, Uint64_inv in F3 as [E3 Hg].
  apply field_inv, Bytes_inv in F4 as [E4 _].
  apply field_inv, Bytes_inv in F5 as [E5 _].
  apply field_inv, Bytes_inv in F6 as [E6 _].
  apply field_inv, Bytes_inv in F7 as [E7 _].
  apply field_inv, Bytes_inv in F8 as [E8 _].
  apply field_inv, Bytes_inv in F9 as [E9 _].
  assert (Ec : firstn (Z.to_nat size) r =
               wire_content (TxData.mk nonce price gas to amount payload v r0 s)).
  { unfold wire_content. cbn [TxData.AccountNonce TxData.Price TxData.GasLimit
      TxData.Recipient TxData.Amount TxData.Payload TxData.V TxData.R TxData.S].
    rewrite E1, E2, E3, E4, E5, E6, E7, E8, E9. reflexivity. }
  rewrite <- Ec, Hl. cbn [TxData.AccountNonce TxData.GasLimit].
  split; [rewrite <- Er; exact Einp|]. split; [exact Hn|]. split; [exact Hg|].
  split; [lia|]. rewrite <- Er. reflexivity.
Qed.

(** X15. [DecodeRLP] accepts the encoding that [EncodeRLP] writes and no
    other: when it returns a message, the input it has read is the
    encoding of this message, byte for byte, followed by what it leaves in
    the stream; the nonce and the gas limit fit in 64 bits; the size it
    stores is the length of the encoding as a [uint64]; and the hash and
    the sender cache of the receiver are kept. *)
Theorem DecodeRLP_canonical fresh inp decoded rest :
  DecodeRLP fresh inp = Ok (decoded, rest) ->
  exists enc,
    EncodeRLP decoded = Ok enc /\
    inp = enc ++ rest /\
    size decoded = wrap64 (blen enc) /\
    0 <= TxData.AccountNonce (Data decoded) < 2 ^ 64 /\
    0 <= TxData.GasLimit (Data decoded) < 2 ^ 64 /\
    hash decoded = hash fresh /\ from decoded = from fresh.
Proof.
  unfold DecodeRLP.
  destruct (rlp.Kind false inp) as [[[k sz] r]|e|p] eqn:EK; cbn [bind]; try discriminate.
  destruct (TxData.decode inp) as [[d t]|e|p] eqn:ED; cbn [bind]; try discriminate.
  intros Eq. injection Eq as <- <-.
  apply decode_inv in ED as (Einp & Hn & Hg & Hl & EK').
  rewrite EK in EK'. injection EK' as _ -> _.
  eexists. split; [apply EncodeRLP_content|]. cbn [Data size hash from].
  split; [rewrite <- app_assoc; exact Einp|].
  split; [|auto].
  rewrite blen_app, blen_puthead_headsize. reflexivity.
Qed.

Lemma Toy_signed_wire :
  DecodeRLP (mkMsg (TxData.mk 0 [] 0 [] [] [] [] [] []) 0 ethcmn.Hash_zero None)
    (map byte.of_Z
       [0xdf; 0x80; 0x01; 0x82; 0x52; 0x08; 0x94;
        0x11; 0x11; 0x11; 0x11; 0x11; 0x11; 0x11; 0x11; 0x11; 0x11;
        0x11; 0x11; 0x11; 0x11; 0x11; 0x11; 0x11; 0x11; 0x11; 0x11;
        0x80; 0x80; 0x25; 0x01; 0x01; 0xff]) =
    Ok (mkMsg (Data Toy.signed) 32 ethcmn.Hash_zero None, [Byte.xff]).
Proof. vm_compute. reflexivity. Qed.

Lemma DecodeRLP_canonical_witness :
  DecodeRLP (mkMsg (TxData.mk 0 [] 0 [] [] [] [] [] []) 0 ethcmn.Hash_zero None)
    (map byte.of_Z
       [0xdf; 0x80; 0x01; 0x82; 0x52; 0x08; 0x94;
        0x11; 0x11; 0x11; 0x11; 0x11; 0x11; 0x11; 0x11; 0x11; 0x11;
        0x11; 0x11; 0x11; 0x11; 0x11; 0x11; 0x11; 0x11; 0x11; 0x11;
        0x80; 0x80; 0x25; 0x01; 0x01; 0xff]) =
    Ok (mkMsg (Data Toy.signed) 32 ethcmn.Hash_zero None, [Byte.xff]) /\
  exists enc,
    EncodeRLP (mkMsg (Data Toy.signed) 32 ethcmn.Hash_zero None) = Ok enc /\
    map byte.of_Z
       [0xdf; 0x80; 0x01; 0x82; 0x52; 0x08; 0x94;
        0x11; 0x11; 0x11; 0x11; 0x11; 0x11; 0x11; 0x11; 0x11; 0x11;
        0x11; 0x11; 0x11; 0x11; 0x11; 0x11; 0x11; 0x11; 0x11; 0x11;
        0x80; 0x80; 0x25; 0x01; 0x01; 0xff] = enc ++ [Byte.xff] /\
    size (mkMsg (Data Toy.signed) 32 ethcmn.Hash_zero None) = wrap64 (blen enc) /\
    0 <= TxData.AccountNonce (Data (mkMsg (Data Toy.signed) 32 ethcmn.Hash_zero None)) < 2 ^ 64 /\
    0 <= TxData.GasLimit (Data (mkMsg (Data Toy.signed) 32 ethcmn.Hash_zero None)) < 2 ^ 64 /\
    hash (mkMsg (Data Toy.signed) 32 ethcmn.Hash_zero None) =
      hash (mkMsg (TxData.mk 0 [] 0 [] [] [] [] [] []) 0 ethcmn.Hash_zero None) /\
    from (mkMsg (Data Toy.signed) 32 ethcmn.Hash_zero None) =
      from (mkMsg (TxData.mk 0 [] 0 [] [] [] [] [] []) 0 ethcmn.Hash_zero None).
Proof.
  split; [exact Toy_signed_wire|].
  exact (DecodeRLP_canonical _ _ _ _ Toy_signed_wire).
Defined.






(** ** Signing again *)

(** X12. [Sign] reads the six data fields only and overwrites [V], [R] and
    [S]: signing a message that was signed before, with whatever key and
    chain id, gives what signing the message itself gives. *)
Theorem Sign_overwrites (PrivateKey : Type) (Keccak256 : bytes -> bytes)
    (ecdsaSign : bytes -> PrivateKey -> option bytes)
    chainID priv chainID' priv' msg signed :
  Sign PrivateKey Keccak256 ecdsaSign chainID' priv' msg = Ok signed ->
  Sign PrivateKey Keccak256 ecdsaSign chainID priv signed =
  Sign PrivateKey Keccak256 ecdsaSign chainID priv msg.
Proof.
  intros Hs. apply Sign_Ok in Hs as (v & r & s & ->).
  unfold Sign.
  rewrite (RLPSignBytes_Data Keccak256 msg) by reflexivity.
  destruct (ecdsaSign _ _); [|reflexivity].
  destruct (negb _); reflexivity.
Qed.

Lemma Sign_overwrites_witness :
  Sign Toy.PrivateKey Toy.Keccak256 Toy.ecdsaSign 1 true Toy.tx0 = Ok Toy.signed /\
  Sign Toy.PrivateKey Toy.Keccak256 Toy.ecdsaSign 5 false Toy.signed =
  Sign Toy.PrivateKey Toy.Keccak256 Toy.ecdsaSign 5 false Toy.tx0.
Proof.
  split; [exact Toy_signed_Sign|].
  exact (Sign_overwrites Toy.PrivateKey Toy.Keccak256 Toy.ecdsaSign 5 false 1 true
           Toy.tx0 Toy.signed Toy_signed_Sign).
Defined.

(** ** Witnesses on the toy primitives *)

Lemma Toy_tx0_no_cache chainID : no_cache_entry chainID Toy.tx0.
Proof. intros c Hc. discriminate Hc. Qed.

Lemma VerifySig_accepted_V_witness :
  no_cache_entry 1 Toy.tx0 /\ 1 <> 0 /\
  big.SetBytes (TxData.V (Data Toy.tx0)) <> 1 * 2 + 35 /\
  big.SetBytes (TxData.V (Data Toy.tx0)) <> 1 * 2 + 36 /\
  big.SetBytes (TxData.V (Data Toy.tx0)) <> 1 * 2 - 19 /\
  big.SetBytes (TxData.V (Data Toy.tx0)) <> 1 * 2 - 20 /\
  VerifySig Toy.Keccak256 Toy.Ecrecover 1 Toy.tx0 0 = (Err ErrInvalidSignature, Toy.tx0, 0%nat).
Proof.
  split; [apply Toy_tx0_no_cache|]. split; [discriminate|].
  split; [discriminate|]. split; [discriminate|]. split; [discriminate|].
  split; [discriminate|].
  apply (VerifySig_accepted_V Toy.Keccak256 Toy.Ecrecover 1 Toy.tx0 0%nat);
    (apply Toy_tx0_no_cache || discriminate).
Defined.

Lemma VerifySig_new_witness :
  newMsgEthereumTx 0 (Some Toy.addr1) (Some 0) 21000 (Some 1) [] = Ok Toy.tx0 /\
  VerifySig Toy.Keccak256 Toy.Ecrecover 7 Toy.tx0 0 =
    (Err (if 7 =? 0 then ErrChainIDZero else ErrInvalidSignature), Toy.tx0, 0%nat).
Proof.
  split; [reflexivity|].
  apply (VerifySig_new Toy.Keccak256 Toy.Ecrecover 0 (Some Toy.addr1) (Some 0) 21000
           (Some 1) [] Toy.tx0 7 0%nat). reflexivity.
Defined.

Lemma VerifySig_outcome_witness :
  VerifySig Toy.Keccak256 Toy.Ecrecover 1 Toy.signed 0 =
    (Ok (repeat Byte.x01 20), Toy.verified, 1%nat) /\
  (1%nat = 0%nat \/ 1%nat = 1%nat) /\
  (Ok (repeat Byte.x01 20) = Err ErrChainIDZero \/
   Ok (repeat Byte.x01 20) = Err ErrInvalidSignature -> 1%nat = 0%nat) /\
  (forall a, Ok (repeat Byte.x01 20) = Ok a -> length a = 20%nat) /\
  ((forall a, Ok (repeat Byte.x01 20) <> Ok a) -> Toy.verified = Toy.signed).
Proof.
  split; [exact Toy_signed_VerifySig|].
  exact (VerifySig_outcome Toy.Keccak256 Toy.Ecrecover 1 Toy.signed 0%nat _ _ _
           Toy_signed_VerifySig).
Defined.

Lemma VerifySig_cache_survives_witness :
  from Toy.verified =
    Some (SigCache.mk (ethtypes.NewEIP155Signer 1) (repeat Byte.x01 20)) /\
  ethtypes.chainId (ethtypes.NewEIP155Signer 1) = 1 /\
  exists signed2,
    Sign Toy.PrivateKey Toy.Keccak256 Toy.ecdsaSign 1 false Toy.verified = Ok signed2 /\
    TxData.R (Data signed2) = [Byte.x02] /\
    VerifySig Toy.Keccak256 Toy.Ecrecover 1 signed2 1 =
      (Ok (repeat Byte.x01 20), signed2, 1%nat).
Proof.
  split; [reflexivity|]. split; [reflexivity|].
  eexists. split; [reflexivity|]. split; [vm_compute; reflexivity|].
  refine (proj2 (proj2 (proj2
    (proj1 (VerifySig_cache_survives Toy.PrivateKey Toy.Keccak256 Toy.ecdsaSign
              Toy.Ecrecover 1 Toy.verified _ 1%nat eq_refl eq_refl)
       1 false _ eq_refl)))).
Defined.

Lemma VerifySig_no_panic_witness :
  KeccakContract Toy.Keccak256 /\
  fst (fst (VerifySig Toy.Keccak256 Toy.Ecrecover 1 Toy.signed 0)) <> Panic SliceBoundsOutOfRange.
Proof.
  split; [exact Toy_keccak_ok|].
  exact (VerifySig_no_panic Toy.Keccak256 Toy.Ecrecover Toy_keccak_ok 1 Toy.signed 0%nat
           SliceBoundsOutOfRange).
Defined.

(** ** Replay on another chain *)

Section Replay.

Variable PrivateKey : Type.
Variable validKey : PrivateKey -> Prop.
Variable Keccak256 : bytes -> bytes.
Variable ecdsaSign : bytes -> PrivateKey -> option bytes.
Variable Ecrecover : bytes -> bytes -> option bytes.
Variable FromECDSAPub : PrivateKey -> bytes.

Hypothesis sign_ok : SignContract PrivateKey validKey ecdsaSign Ecrecover FromECDSAPub.

(** X11. A message signed for a positive chain id is an "invalid signature"
    for every other chain id, found without calling [Ecrecover], except
    for the chain ids 27 and 28 above the one it was signed for (and 0,
    which is refused as such). *)
Theorem Sign_other_chainID msg chainID priv signed chainID' calls :
  validKey priv ->
  0 < chainID ->
  Sign PrivateKey Keccak256 ecdsaSign chainID priv msg = Ok signed ->
  no_cache_entry chainID' signed ->
  chainID' <> 0 -> chainID' <> chainID ->
  chainID' <> chainID + 27 -> chainID' <> chainID + 28 ->
  VerifySig Keccak256 Ecrecover chainID' signed calls =
    (Err ErrInvalidSignature, signed, calls).
Proof.
  intros Hk Hc Hs Hcache H0 Hne H27 H28.
  destruct (Sign_spec PrivateKey validKey Keccak256 ecdsaSign Ecrecover FromECDSAPub
              sign_ok chainID priv msg Hk) as (sig & _ & _ & Hv01 & _ & _ & HS).
  rewrite Hs in HS. injection HS as ->.
  destruct (Z.eqb_spec chainID 0) as [|_]; [lia|].
  apply VerifySig_invalid; try assumption.
  cbn [TxData.V TxData.R TxData.S TxData.with_VRS Data with_Data].
  rewrite SetBytes_Bytes by lia.
  destruct (Z.le_gt_cases 256 (Z.abs (sig_V sig + 35 + chainID * 2 - chainID' * 2 - 8)))
    as [Hbig|Hsmall]; [left; exact Hbig|right].
  destruct (recovery_id_magnitude _ Hsmall) as [E0 E1].
  apply ValidateSignatureValues_recid; intros E; [apply E0 in E|apply E1 in E]; lia.
Qed.

End Replay.

Lemma Sign_other_chainID_witness :
  Toy.validKey true /\ 0 < 1 /\
  Sign Toy.PrivateKey Toy.Keccak256 Toy.ecdsaSign 1 true Toy.tx0 = Ok Toy.signed /\
  no_cache_entry 2 Toy.signed /\
  VerifySig Toy.Keccak256 Toy.Ecrecover 2 Toy.signed 0 =
    (Err ErrInvalidSignature, Toy.signed, 0%nat).
Proof.
  assert (Hn : no_cache_entry 2 Toy.signed) by (intros c Hc; discriminate Hc).
  split; [exact I|]. split; [lia|]. split; [exact Toy_signed_Sign|]. split; [exact Hn|].
  apply (Sign_other_chainID Toy.PrivateKey Toy.validKey Toy.Keccak256 Toy.ecdsaSign
           Toy.Ecrecover Toy.FromECDSAPub Toy_sign_ok Toy.tx0 1 true Toy.signed 2 0%nat);
    try (exact I || exact Toy_signed_Sign || exact Hn || lia).
Defined.

(** On the toy primitives the message signed for chain id 1 is even
    verified for chain id 28. *)
Example Toy_signed_chain_28 :
  fst (fst (VerifySig Toy.Keccak256 Toy.Ecrecover 28 Toy.signed 0)) =
    Ok (repeat Byte.x01 20).
Proof. vm_compute. reflexivity. Qed.
